(** * arista/discoverer.py: the discovery state machine

    A shallow embedding of the [Discoverer] class of [arista/discoverer.py]
    (a [gst.Pipeline] that probes a media resource and emits one
    ['discovered'] signal), and the properties of its completion logic.

    The object is a record of the Python attributes the methods read and
    write, followed by the objects of the GLib/GStreamer runtime that the
    methods act on through calls (the bus and its signal watch, the main
    loop's timeout and idle sources, the pipeline state, the elements added
    to the pipeline, the signal emissions).  Every method is a computation in
    a state-and-exception monad: a Python exception leaves the attributes
    assigned so far in place, as in the source.  Logging calls are dropped.
    The construction of the decode front-end in [__init__] is outside this
    development. *)

From Stdlib Require Import ZArith QArith Qabs Ascii String List Bool Lia
  Floats.
From stdpp Require Import gmap strings pretty.
Import ListNotations.

Local Open Scope Z_scope.
Local Open Scope string_scope.
Local Open Scope list_scope.

(** ** Python values *)

(** The values found in a caps structure or in a tag list. *)
Inductive value :=
| VInt (z : Z)
| VStr (s : string)
| VBool (b : bool)
| VFraction (num denom : Z).

(** [gst.Caps]: the string given by [to_string()] and the list of structures,
    each a mapping from field names to values.  [__nonzero__] of a caps
    object is "not empty". *)
Record Caps := mkCaps {
  to_string : string;
  structures : list (gmap string value)
}.

Definition caps_nonzero (c : Caps) : bool :=
  match structures c with
  | [] => false
  | _ :: _ => true
  end.

(** The attributes [audiocaps] and [videocaps] start as the empty dict [{}]
    and later hold a caps object. *)
Inductive capsfield :=
| EmptyDict
| CapsObj (c : Caps).

(** Python truthiness of such an attribute ([not self.audiocaps]). *)
Definition truthy (f : capsfield) : bool :=
  match f with
  | EmptyDict => false
  | CapsObj c => caps_nonzero c
  end.

(** [sub in s] on Python strings: [sub] occurs in [s] as a substring. *)
Fixpoint contains (sub s : string) : bool :=
  if String.prefix sub s then true
  else match s with
       | EmptyString => false
       | String _ t => contains sub t
       end.

(** ** Numbers: [max_interleave] is an [int] or a [float] *)

Inductive number :=
| PyInt (z : Z)
| PyFloat (f : float).

Inductive exn :=
| AttributeError (attr : string)
| KeyError (key : string)
| IndexError
| OverflowError
| ValueError
| TypeError.

Inductive result (A : Type) :=
| Ok (a : A)
| Raise (e : exn).
Arguments Ok {A} a.
Arguments Raise {A} e.

(** [float(z)] for a Python integer: the nearest binary64 number,
    [OverflowError] when there is none. *)
Definition float_of_int (z : Z) : result float :=
  let f := SF2Prim (binary_normalize prec emax z 0 false) in
  if PrimFloat.is_infinity f then Raise OverflowError else Ok f.

(** [a * b]: exact on two integers, binary64 multiplication once one operand
    is a float (the integer operand is converted first). *)
Definition num_mul (a b : number) : result number :=
  match a, b with
  | PyInt x, PyInt y => Ok (PyInt (x * y))
  | PyInt x, PyFloat g =>
      match float_of_int x with
      | Ok f => Ok (PyFloat (PrimFloat.mul f g))
      | Raise e => Raise e
      end
  | PyFloat f, PyInt y =>
      match float_of_int y with
      | Ok g => Ok (PyFloat (PrimFloat.mul f g))
      | Raise e => Raise e
      end
  | PyFloat f, PyFloat g => Ok (PyFloat (PrimFloat.mul f g))
  end.

(** [int(x)]: the identity on integers, truncation toward zero on floats,
    [OverflowError] on an infinity and [ValueError] on a NaN. *)
Definition int_of_float (f : float) : result Z :=
  match Prim2SF f with
  | S754_zero _ => Ok 0
  | S754_infinity _ => Raise OverflowError
  | S754_nan => Raise ValueError
  | S754_finite s m e =>
      let a := Z.shiftl (Z.pos m) e in
      Ok (if s then - a else a)
  end.

Definition py_int (x : number) : result Z :=
  match x with
  | PyInt z => Ok z
  | PyFloat f => int_of_float f
  end.

(** The exact rational value of a number (of a finite one). *)
Definition Q_of_float (f : float) : Q :=
  match Prim2SF f with
  | S754_finite s m e =>
      let a := if s then Z.neg m else Z.pos m in
      if (0 <=? e)%Z then inject_Z (a * 2 ^ e) else (a # Z.to_pos (2 ^ (- e)))
  | _ => 0%Q
  end.

Definition Q_of_number (x : number) : Q :=
  match x with
  | PyInt z => inject_Z z
  | PyFloat f => Q_of_float f
  end.

(** [gst.SECOND], in nanoseconds. *)
Definition SECOND : number := PyInt 1000000000.

(** ** The runtime objects *)

(** The pipeline states the source asks for. *)
Inductive gst_state := STATE_NULL | STATE_READY | STATE_PLAYING.

(** A [queue] element: the four properties the source sets, and whether the
    handler of its ['overrun'] signal is still connected. *)
Record Queue := mkQueue {
  min_threshold_time : Z;
  max_size_time : Z;
  max_size_bytes : Z;
  max_size_buffers : Z;
  overrun_connected : bool
}.

(** A [fakesink] element, named ["fakesink%d-%s"] from a number and a kind. *)
Record Fakesink := mkFakesink {
  sink_number : Z;
  sink_kind : string
}.

(** Bus messages, by [message.type]; a tag message carries its tag list. *)
Inductive message :=
| MESSAGE_EOS
| MESSAGE_TAG (taglist : list (string * value))
| MESSAGE_ERROR
| MESSAGE_OTHER.

(** ** The [Discoverer] object *)

Record Discoverer := mkDiscoverer {
  (* the attributes of [self]; [None] is Python's [None] *)
  mimetype : option string;
  audiocaps : capsfield;
  videocaps : capsfield;
  videowidth : value;
  videoheight : value;
  videorate : value;
  audiofloat : bool;
  audiorate : value;
  audiodepth : value;
  audiowidth : value;
  audiochannels : value;
  audiolength : Z;
  videolength : Z;
  is_video : bool;
  is_audio : bool;
  otherstreams : list string;
  finished : bool;
  sinknumber : Z;
  tags : gmap string value;
  _success : bool;
  _nomorepads : bool;
  _timeoutid : Z;
  _max_interleave : number;
  (* whether the attribute [self.bus] has been assigned *)
  bus : bool;
  (* the pipeline's bus: its signal-watch count and the number of
     connected ['message'] handlers *)
  bus_watch : nat;
  bus_handlers : nat;
  (* the main loop: the next source id, the live timeout sources (each
     bound to [_timed_out_or_eos]) and the pending idle sources (each bound
     to [_stop]) *)
  glib_next : Z;
  timeouts : list Z;
  idles : list Z;
  (* the state last reached through [set_state] *)
  pipeline_state : gst_state;
  (* the fakesink/queue pairs added to the pipeline, oldest first *)
  children : list (Fakesink * Queue);
  (* the arguments of the ['discovered'] emissions, oldest first *)
  emitted : list bool
}.

(** Attribute assignment: [upd d f v] is [d] with the field [f] replaced by
    [v] and every other field kept. *)
Ltac upd d proj v :=
  let e := constr:(
    mkDiscoverer (mimetype d) (audiocaps d) (videocaps d) (videowidth d)
    (videoheight d) (videorate d) (audiofloat d) (audiorate d) (audiodepth
    d) (audiowidth d) (audiochannels d) (audiolength d) (videolength d)
    (is_video d) (is_audio d) (otherstreams d) (finished d) (sinknumber d)
    (tags d) (_success d) (_nomorepads d) (_timeoutid d) (_max_interleave
    d) (bus d) (bus_watch d) (bus_handlers d) (glib_next d) (timeouts d)
    (idles d) (pipeline_state d) (children d) (emitted d)
  ) in
  lazymatch e with
  | context C [proj d] => let r := context C [v] in exact r
  end.

Definition set_mimetype (v : option string) (d : Discoverer) : Discoverer :=
  ltac:(upd d mimetype v).
Definition set_audiocaps (v : capsfield) (d : Discoverer) : Discoverer :=
  ltac:(upd d audiocaps v).
Definition set_videocaps (v : capsfield) (d : Discoverer) : Discoverer :=
  ltac:(upd d videocaps v).
Definition set_videowidth (v : value) (d : Discoverer) : Discoverer :=
  ltac:(upd d videowidth v).
Definition set_videoheight (v : value) (d : Discoverer) : Discoverer :=
  ltac:(upd d videoheight v).
Definition set_videorate (v : value) (d : Discoverer) : Discoverer :=
  ltac:(upd d videorate v).
Definition set_audiofloat (v : bool) (d : Discoverer) : Discoverer :=
  ltac:(upd d audiofloat v).
Definition set_audiorate (v : value) (d : Discoverer) : Discoverer :=
  ltac:(upd d audiorate v).
Definition set_audiodepth (v : value) (d : Discoverer) : Discoverer :=
  ltac:(upd d audiodepth v).
Definition set_audiowidth (v : value) (d : Discoverer) : Discoverer :=
  ltac:(upd d audiowidth v).
Definition set_audiochannels (v : value) (d : Discoverer) : Discoverer :=
  ltac:(upd d audiochannels v).
Definition set_audiolength (v : Z) (d : Discoverer) : Discoverer :=
  ltac:(upd d audiolength v).
Definition set_videolength (v : Z) (d : Discoverer) : Discoverer :=
  ltac:(upd d videolength v).
Definition set_is_video (v : bool) (d : Discoverer) : Discoverer :=
  ltac:(upd d is_video v).
Definition set_is_audio (v : bool) (d : Discoverer) : Discoverer :=
  ltac:(upd d is_audio v).
Definition set_otherstreams (v : list string) (d : Discoverer) : Discoverer :=
  ltac:(upd d otherstreams v).
Definition set_finished (v : bool) (d : Discoverer) : Discoverer :=
  ltac:(upd d finished v).
Definition set_sinknumber (v : Z) (d : Discoverer) : Discoverer :=
  ltac:(upd d sinknumber v).
Definition set_tags (v : gmap string value) (d : Discoverer) : Discoverer :=
  ltac:(upd d tags v).
Definition set__success (v : bool) (d : Discoverer) : Discoverer :=
  ltac:(upd d _success v).
Definition set__nomorepads (v : bool) (d : Discoverer) : Discoverer :=
  ltac:(upd d _nomorepads v).
Definition set__timeoutid (v : Z) (d : Discoverer) : Discoverer :=
  ltac:(upd d _timeoutid v).
Definition set_bus (v : bool) (d : Discoverer) : Discoverer :=
  ltac:(upd d bus v).
Definition set_bus_watch (v : nat) (d : Discoverer) : Discoverer :=
  ltac:(upd d bus_watch v).
Definition set_bus_handlers (v : nat) (d : Discoverer) : Discoverer :=
  ltac:(upd d bus_handlers v).
Definition set_glib_next (v : Z) (d : Discoverer) : Discoverer :=
  ltac:(upd d glib_next v).
Definition set_timeouts (v : list Z) (d : Discoverer) : Discoverer :=
  ltac:(upd d timeouts v).
Definition set_idles (v : list Z) (d : Discoverer) : Discoverer :=
  ltac:(upd d idles v).
Definition set_pipeline_state (v : gst_state) (d : Discoverer) : Discoverer :=
  ltac:(upd d pipeline_state v).
Definition set_children (v : list (Fakesink * Queue)) (d : Discoverer)
  : Discoverer :=
  ltac:(upd d children v).
Definition set_emitted (v : list bool) (d : Discoverer) : Discoverer :=
  ltac:(upd d emitted v).

(** ** Methods as computations

    A method body runs on the object and either returns or raises; in both
    cases the object is left as the statements executed so far made it. *)

Definition M (A : Type) : Type := Discoverer -> result A * Discoverer.

Definition ret {A} (a : A) : M A := fun d => (Ok a, d).

Definition bind {A B} (m : M A) (k : A -> M B) : M B :=
  fun d => match m d with
           | (Ok a, d') => k a d'
           | (Raise e, d') => (Raise e, d')
           end.

Definition raise {A} (e : exn) : M A := fun d => (Raise e, d).

Definition gets {A} (f : Discoverer -> A) : M A := fun d => (Ok (f d), d).

Definition modify (f : Discoverer -> Discoverer) : M unit :=
  fun d => (Ok tt, f d).

Definition lift {A} (r : result A) : M A := fun d => (r, d).

Declare Scope py_scope.
Delimit Scope py_scope with py.
Notation "x <- m ;; k" := (bind m (fun x => k))
  (at level 20, m at level 99, k at level 200, only parsing) : py_scope.
Notation "m ;; k" := (bind m (fun _ => k))
  (at level 100, k at level 200, right associativity, only parsing) : py_scope.
Local Open Scope py_scope.

(** The object after a method ran, whatever it returned or raised: a signal
    handler's exception is printed by the binding and goes no further. *)
Definition exec {A} (m : M A) (d : Discoverer) : Discoverer := snd (m d).

(** The same sequencing on plain results (no object involved). *)
Definition result_bind {A B} (r : result A) (k : A -> result B) : result B :=
  match r with
  | Ok a => k a
  | Raise e => Raise e
  end.

Notation "'let?' x ':=' r 'in' k" := (result_bind r (fun x => k))
  (at level 10, x name, r at level 100, k at level 200, only parsing)
  : py_scope.

(** ** Calls into the runtime *)

(** [self.emit('discovered', success)]. *)
Definition emit_discovered (success : bool) : M unit :=
  modify (fun d => set_emitted (emitted d ++ [success]) d).

(** [self.bus.remove_signal_watch()]: an [AttributeError] when [discover]
    never assigned [self.bus]; the watch count goes down by one (and stays
    at zero, with a warning of the runtime, when there is no watch). *)
Definition bus_remove_signal_watch : M unit :=
  b <- gets bus;;
  if b then modify (fun d => set_bus_watch (Nat.pred (bus_watch d)) d)
  else raise (AttributeError "bus").

(** [gobject.source_remove(id)]: the source [id] leaves the main loop. *)
Definition source_remove (id : Z) : M unit :=
  modify (fun d =>
    set_idles (filter (fun i => negb (Z.eqb i id)) (idles d))
      (set_timeouts (filter (fun i => negb (Z.eqb i id)) (timeouts d)) d)).

(** [gobject.timeout_add(3000, self._timed_out_or_eos)] and
    [gobject.idle_add(self._stop)]: a new source with a fresh, non-zero id. *)
Definition timeout_add : M Z :=
  n <- gets glib_next;;
  modify (fun d => set_glib_next (n + 1) (set_timeouts (timeouts d ++ [n]) d));;
  ret n.

Definition idle_add_stop : M Z :=
  n <- gets glib_next;;
  modify (fun d => set_glib_next (n + 1) (set_idles (idles d ++ [n]) d));;
  ret n.

(** [self.set_state(state)]: [ok] tells whether the runtime performs the
    change; the value returned is falsy exactly on failure. *)
Definition set_state (state : gst_state) (ok : bool) : M bool :=
  if ok then modify (set_pipeline_state state);; ret true
  else ret false.

(** ** The methods of [Discoverer] *)

(** [__init__(filename, max_interleave)], without the decode front-end
    that the file name selects (the source element, [dbin] and the
    connection of its signals to the handlers below). *)
Definition __init__ (max_interleave : number) : Discoverer := {|
  mimetype := None;
  audiocaps := EmptyDict;
  videocaps := EmptyDict;
  videowidth := VInt 0;
  videoheight := VInt 0;
  videorate := VFraction 0 1;
  audiofloat := false;
  audiorate := VInt 0;
  audiodepth := VInt 0;
  audiowidth := VInt 0;
  audiochannels := VInt 0;
  audiolength := 0;
  videolength := 0;
  is_video := false;
  is_audio := false;
  otherstreams := [];
  finished := false;
  sinknumber := 0;
  tags := ∅;
  _success := false;
  _nomorepads := false;
  _timeoutid := 0;
  _max_interleave := max_interleave;
  bus := false;
  bus_watch := 0;
  bus_handlers := 0;
  glib_next := 1;
  timeouts := [];
  idles := [];
  pipeline_state := STATE_NULL;
  children := [];
  emitted := []
|}.

(** The property [length]. *)
Definition length (d : Discoverer) : Z :=
  Z.max (videolength d) (audiolength d).

Definition _finished (success : bool) : M bool :=
  modify (set__success success);;
  bus_remove_signal_watch;;
  tid <- gets _timeoutid;;
  (if negb (Z.eqb tid 0)
   then source_remove tid;; modify (set__timeoutid 0)
   else ret tt);;
  idle_add_stop;;
  ret false.

Definition _timed_out_or_eos : M unit :=
  d <- gets id;;
  if (negb (is_audio d) && negb (is_video d))
     || (is_audio d && negb (truthy (audiocaps d)))
     || (is_video d && negb (truthy (videocaps d)))
  then _finished false;; ret tt
  else _finished true;; ret tt.

(** [_stop()]; the runtime is taken to bring the pipeline down to
    [STATE_READY] whenever asked. *)
Definition _stop : M unit :=
  modify (set_finished true);;
  set_state STATE_READY true;;
  success <- gets _success;;
  emit_discovered success.

Definition _bus_message_cb (msg : message) : M unit :=
  match msg with
  | MESSAGE_EOS => _timed_out_or_eos
  | MESSAGE_TAG taglist =>
      modify (fun d =>
        set_tags
          (fold_left (fun t kv => <[kv.1 := kv.2]> t) taglist (tags d)) d)
  | MESSAGE_ERROR => _finished false;; ret tt
  | MESSAGE_OTHER => ret tt
  end.

(** [discover()]; [playing] tells whether the runtime brings the pipeline
    to [STATE_PLAYING]. *)
Definition discover (playing : bool) : M unit :=
  f <- gets finished;;
  if f then emit_discovered false
  else
    modify (set_bus true);;
    modify (fun d => set_bus_watch (S (bus_watch d)) d);;
    modify (fun d => set_bus_handlers (S (bus_handlers d)) d);;
    tid <- timeout_add;;
    modify (set__timeoutid tid);;
    r <- set_state STATE_PLAYING playing;;
    if negb r then _finished false;; ret tt else ret tt.

Definition _no_more_pads_cb : M unit :=
  modify (set__nomorepads true).

(** [_unknown_type_cb(dbin, pad, caps)]; [caps] is [caps.to_string()]. *)
Definition _unknown_type_cb (caps : string) : M unit :=
  modify (fun d => set_otherstreams (otherstreams d ++ [caps]) d);;
  d <- gets id;;
  if negb (is_video d) && negb (is_audio d)
  then modify (set_finished true);; _finished false;; ret tt
  else ret tt.

Definition _have_type_cb (caps : string) : M unit :=
  modify (set_mimetype (Some caps)).

(** [caps[i][key]]: [IndexError] without an [i]-th structure, [KeyError]
    without the field. *)
Definition caps_getitem (c : Caps) (i : nat) (key : string) : M value :=
  match nth_error (structures c) i with
  | None => raise IndexError
  | Some st =>
      match st !! key with
      | Some v => ret v
      | None => raise (KeyError key)
      end
  end.

(** [_notify_caps_cb(pad, args)].  [negotiated] is what
    [pad.get_negotiated_caps()] returns ([None] before negotiation) and
    [duration] the answer of the peer to the duration query ([None] when the
    query fails, otherwise the parsed length). *)
Definition _notify_caps_cb (negotiated : option Caps) (duration : option Z)
  : M unit :=
  match negotiated with
  | None => ret tt
  | Some caps =>
      if negb (caps_nonzero caps) then ret tt
      else
        let length := match duration with Some l => l | None => -1 end in
        if contains "audio" (to_string caps) then
          modify (set_audiocaps (CapsObj caps));;
          modify (set_audiolength length);;
          rate <- caps_getitem caps 0 "rate";;
          modify (set_audiorate rate);;
          width <- caps_getitem caps 0 "width";;
          modify (set_audiowidth width);;
          channels <- caps_getitem caps 0 "channels";;
          modify (set_audiochannels channels);;
          (if contains "x-raw-float" (to_string caps)
           then modify (set_audiofloat true)
           else depth <- caps_getitem caps 0 "depth";;
                modify (set_audiodepth depth));;
          d <- gets id;;
          if _nomorepads d && (negb (is_video d) || truthy (videocaps d))
          then _finished true;; ret tt
          else ret tt
        else if contains "video" (to_string caps) then
          modify (set_videocaps (CapsObj caps));;
          modify (set_videolength length);;
          width <- caps_getitem caps 0 "width";;
          modify (set_videowidth width);;
          height <- caps_getitem caps 0 "height";;
          modify (set_videoheight height);;
          framerate <- caps_getitem caps 0 "framerate";;
          modify (set_videorate framerate);;
          d <- gets id;;
          if _nomorepads d && (negb (is_audio d) || truthy (audiocaps d))
          then _finished true;; ret tt
          else ret tt
        else ret tt
  end.

(** [queue.props.<name> = v] for an unsigned property of [bits] bits
    ([guint64] for the two times, [guint] for the two sizes): the binding
    refuses a value outside the property's range with a [TypeError]. *)
Definition set_unsigned_property (bits : Z) (v : Z) : result Z :=
  if Z.leb 0 v && Z.ltb v (2 ^ bits) then Ok v else Raise TypeError.

(** The queue that [_new_decoded_pad_cb] builds for [max_interleave], in the
    order of the source's assignments. *)
Definition make_queue (max_interleave : number) : result Queue :=
  let? t := num_mul max_interleave SECOND in
  let? t := py_int t in
  let? min_threshold := set_unsigned_property 64 t in
  let? t := num_mul (PyInt 2) max_interleave in
  let? t := num_mul t SECOND in
  let? t := py_int t in
  let? max_time := set_unsigned_property 64 t in
  let? max_bytes := set_unsigned_property 32 0 in
  let? n := num_mul (PyInt 100) max_interleave in
  let? n := py_int n in
  let? max_buffers := set_unsigned_property 32 n in
  Ok {| min_threshold_time := min_threshold;
        max_size_time := max_time;
        max_size_bytes := max_bytes;
        max_size_buffers := max_buffers;
        overrun_connected := true |}.

(** [_new_decoded_pad_cb(dbin, pad)]; [caps] is [pad.get_caps().to_string()].
    The second definition is the part of the method after the
    classification: the fakesink, the queue and their addition to the
    pipeline. *)
Definition add_fakesink_queue (caps : string) : M unit :=
  n <- gets sinknumber;;
  let fakesink :=
    {| sink_number := n;
       sink_kind := if contains "audio" caps then "audio" else "video" |} in
  modify (set_sinknumber (n + 1));;
  mi <- gets _max_interleave;;
  queue <- lift (make_queue mi);;
  modify (fun d => set_children (children d ++ [(fakesink, queue)]) d).

Definition _new_decoded_pad_cb (caps : string) : M unit :=
  if contains "audio" caps then
    modify (set_is_audio true);; add_fakesink_queue caps
  else if contains "video" caps then
    modify (set_is_video true);; add_fakesink_queue caps
  else ret tt.

(** [_disable_min_threshold_cb(queue)], the handler of ['overrun']. *)
Definition _disable_min_threshold_cb (q : Queue) : Queue :=
  {| min_threshold_time := 0;
     max_size_time := max_size_time q;
     max_size_bytes := max_size_bytes q;
     max_size_buffers := max_size_buffers q;
     overrun_connected := false |}.

(** The ['overrun'] signal of a queue: its handler runs while connected. *)
Definition overrun (q : Queue) : Queue :=
  if overrun_connected q then _disable_min_threshold_cb q else q.

(** ** The event loop

    What the runtime may deliver to the object.  A signal reaches a handler
    only while the subscription that the source made is in place: bus
    messages while the bus has a signal watch, a timeout or idle callback
    while its source is live, the signals of the streaming graph (new pad,
    no more pads, unknown type, type found, negotiated caps of a fakesink,
    overrun of a queue) while the pipeline is in [STATE_PLAYING]. *)
Inductive event :=
| EvBus (msg : message)
| EvTimeout (id : Z)
| EvIdle
| EvNewPad (caps : string)
| EvNoMorePads
| EvUnknownType (caps : string)
| EvHaveType (caps : string)
| EvNotifyCaps (sink : nat) (negotiated : option Caps) (duration : option Z)
| EvOverrun (sink : nat).

Definition playing (d : Discoverer) : bool :=
  match pipeline_state d with
  | STATE_PLAYING => true
  | _ => false
  end.

Definition overrun_child (i : nat) (d : Discoverer) : Discoverer :=
  match nth_error (children d) i with
  | Some (sink, q) =>
      set_children (firstn i (children d) ++ (sink, overrun q)
                      :: skipn (S i) (children d)) d
  | None => d
  end.

Definition deliver (ev : event) (d : Discoverer) : Discoverer :=
  match ev with
  | EvBus msg =>
      if (0 <? bus_watch d)%nat
      then Nat.iter (bus_handlers d) (exec (_bus_message_cb msg)) d
      else d
  | EvTimeout id =>
      if existsb (Z.eqb id) (timeouts d)
      then exec (source_remove id) (exec _timed_out_or_eos d)
      else d
  | EvIdle =>
      match idles d with
      | id :: _ => exec _stop (exec (source_remove id) d)
      | [] => d
      end
  | EvNewPad caps =>
      if playing d then exec (_new_decoded_pad_cb caps) d else d
  | EvNoMorePads =>
      if playing d then exec _no_more_pads_cb d else d
  | EvUnknownType caps =>
      if playing d then exec (_unknown_type_cb caps) d else d
  | EvHaveType caps =>
      if playing d then exec (_have_type_cb caps) d else d
  | EvNotifyCaps sink negotiated duration =>
      if playing d && (sink <? List.length (children d))%nat
      then exec (_notify_caps_cb negotiated duration) d
      else d
  | EvOverrun sink =>
      if playing d then overrun_child sink d else d
  end.

(** A discovery session: [__init__], one call of [discover], then the
    events in the order of their delivery. *)
Definition run (evs : list event) (d : Discoverer) : Discoverer :=
  fold_left (fun d ev => deliver ev d) evs d.

Definition session (max_interleave : number) (play : bool)
    (evs : list event) : Discoverer :=
  run evs (exec (discover play) (__init__ max_interleave)).

(** ** The completion decider's phases

    Running: no stop is scheduled and [finished] is unset.  Finishing: a
    [_stop] is pending on the idle queue.  Stopped: [_stop] has run.  A
    state is terminal when it is Finishing or Stopped. *)
Definition terminal (d : Discoverer) : bool :=
  finished d || negb (Nat.eqb (List.length (idles d)) 0).

(** The notifications sent or already scheduled. *)
Definition notifications (d : Discoverer) : nat :=
  (List.length (emitted d) + List.length (idles d))%nat.

(** A kind "has a recorded capability" when its attribute holds a caps
    object. *)
Definition recorded (f : capsfield) : bool :=
  match f with
  | EmptyDict => false
  | CapsObj _ => true
  end.

(** The success criterion of section 4.4 of the specification. *)
Definition success_criterion (d : Discoverer) : bool :=
  (is_audio d || is_video d)
  && implb (is_audio d) (recorded (audiocaps d))
  && implb (is_video d) (recorded (videocaps d)).

(** The object right after [_finished(success)] returned: the closed form of
    the method when [self.bus] exists. *)
Definition after_finished (success : bool) (d : Discoverer) : Discoverer :=
  let tid := _timeoutid d in
  let live i := negb (Z.eqb i tid) in
  let d1 := set_bus_watch (Nat.pred (bus_watch d)) (set__success success d) in
  let d2 :=
    if Z.eqb tid 0 then d1
    else set__timeoutid 0
           (set_idles (filter live (idles d))
              (set_timeouts (filter live (timeouts d)) d1)) in
  set_glib_next (glib_next d + 1) (set_idles (idles d2 ++ [glib_next d]) d2).

(** The fields that the completion logic reads and writes. *)
Definition ctl (d : Discoverer) :=
  (bus d, bus_watch d, bus_handlers d, glib_next d, timeouts d, idles d,
   pipeline_state d, emitted d, finished d, _timeoutid d).

(** The events of the streaming graph that can end a session by themselves. *)
Definition ends_session (ev : event) : bool :=
  match ev with
  | EvNotifyCaps _ _ _ | EvUnknownType _ => true
  | _ => false
  end.

(** [calm evs d]: along [evs] from [d], no capabilities or unknown-type event
    reaches the object while it is Finishing with the graph still playing. *)
Fixpoint calm (evs : list event) (d : Discoverer) : bool :=
  match evs with
  | [] => true
  | ev :: rest =>
      negb (terminal d && playing d && ends_session ev)
      && calm rest (deliver ev d)
  end.

(** ** Definitions used by the statements *)

(** The value that [_timed_out_or_eos] passes to [_finished]. *)
Definition eos_outcome (d : Discoverer) : bool :=
  negb ((negb (is_audio d) && negb (is_video d))
        || (is_audio d && negb (truthy (audiocaps d)))
        || (is_video d && negb (truthy (videocaps d)))).

(** A unary predicate on the caps attributes: unset, or a non-empty caps. *)
Definition unset_or_truthy (f : capsfield) : Prop :=
  f = EmptyDict \/ truthy f = true.

(** The session invariant: what holds of the object after [discover] and
    any number of events. *)
Record Inv (d : Discoverer) : Prop := {
  inv_bus : bus d = true;
  inv_handlers : bus_handlers d = 1%nat;
  inv_acaps : unset_or_truthy (audiocaps d);
  inv_vcaps : unset_or_truthy (videocaps d);
  inv_fresh : Forall (fun i => i < glib_next d) (idles d);
  inv_nodup : NoDup (idles d);
  inv_phase :
    if terminal d
    then bus_watch d = 0%nat /\ timeouts d = [] /\ _timeoutid d = 0
    else bus_watch d = 1%nat /\ timeouts d = [_timeoutid d]
         /\ 0 < _timeoutid d < glib_next d /\ emitted d = []
         /\ playing d = true
}.

(** What [_finished] needs of the object it is called on; unlike [Inv] it
    does not look at [finished], which [_unknown_type_cb] sets first. *)
Record Pre (d : Discoverer) : Prop := {
  pre_bus : bus d = true;
  pre_handlers : bus_handlers d = 1%nat;
  pre_acaps : unset_or_truthy (audiocaps d);
  pre_vcaps : unset_or_truthy (videocaps d);
  pre_fresh : Forall (fun i => i < glib_next d) (idles d);
  pre_nodup : NoDup (idles d);
  pre_phase :
    (bus_watch d = 0%nat /\ timeouts d = [] /\ _timeoutid d = 0)
    \/ (bus_watch d = 1%nat /\ timeouts d = [_timeoutid d]
        /\ 0 < _timeoutid d < glib_next d /\ idles d = [])
}.

(** One event, seen from the completion logic.

    Whatever the event, the control fields either stay as they are, or
    change as by one call of [_finished] (possibly after [finished] was
    set), or change as by one run of [_stop] from the idle queue. *)
Inductive ctl_step (ev : event) (d d' : Discoverer) : Prop :=
| step_same :
    ctl d' = ctl d -> ctl_step ev d d'
| step_finish (b f : bool) :
    ctl d' = ctl (after_finished b (set_finished (finished d || f) d)) ->
    terminal d = false \/ (playing d = true /\ ends_session ev = true) ->
    ctl_step ev d d'
| step_stop (id : Z) (rest : list Z) :
    idles d = id :: rest ->
    ctl d' = ctl (set_emitted (emitted d ++ [_success d])
                    (set_pipeline_state STATE_READY
                       (set_finished true (set_idles rest d)))) ->
    ctl_step ev d d'.

(** The length recorded for a duration query answer. *)
Definition recorded_length (duration : option Z) : Z :=
  match duration with
  | Some l => l
  | None => -1
  end.

(** A kind without recorded capability still has its initial length. *)
Definition LenInv (d : Discoverer) : Prop :=
  (audiocaps d = EmptyDict -> audiolength d = 0)
  /\ (videocaps d = EmptyDict -> videolength d = 0).

(** The configured tolerance in nanoseconds, as an exact rational. *)
Definition tolerance_ns (max_interleave : number) : Q :=
  (Q_of_number max_interleave * inject_Z 1000000000)%Q.

(** Caps used in the examples. *)
Definition audio_caps : Caps := {|
  to_string := "audio/x-raw-int, rate=44100, width=16, depth=16, channels=2";
  structures :=
    [ {[ "rate" := VInt 44100; "width" := VInt 16; "depth" := VInt 16;
         "channels" := VInt 2 ]} ]
|}.

Definition video_caps : Caps := {|
  to_string := "video/x-raw-yuv, width=1920, height=1080, framerate=30000/1001";
  structures :=
    [ {[ "width" := VInt 1920; "height" := VInt 1080;
         "framerate" := VFraction 30000 1001 ]} ]
|}.

Definition mixed_caps : Caps := {|
  to_string := "audio/x-raw-int, rate=8000, note=video";
  structures := [ {[ "rate" := VInt 8000 ]} ]
|}.

Definition audio_caps_48k : Caps := {|
  to_string := "audio/x-raw-int, rate=48000, width=16, depth=16, channels=2";
  structures :=
    [ {[ "rate" := VInt 48000; "width" := VInt 16; "depth" := VInt 16;
         "channels" := VInt 2 ]} ]
|}.

(** ** The rest of the class *)

(** *** The graph chosen by [__init__]

    The second half of [__init__] picks the front-end from the file name.
    The model is the choice alone: which elements are asked for and the
    values handed to them.  The calls into the runtime on these lines
    ([gst.element_factory_make], [set_property], [get_by_name], [connect],
    [add], [link]) are taken to succeed and are not part of the model, so
    nothing here tells what [__init__] may raise.  Two functions of
    Python's library are parameters: [os.path.abspath], as a total
    function, and [int] on a string (an [exn] when the string is no
    integer literal). *)

(** [s.split(sep)] for a separator of one character. *)
Fixpoint split_char (sep : ascii) (s : string) : list string :=
  match s with
  | EmptyString => [EmptyString]
  | String c t =>
      if Ascii.eqb c sep then EmptyString :: split_char sep t
      else match split_char sep t with
           | h :: r => String c h :: r
           | [] => [String c EmptyString]
           end
  end.

(** [s[n:]]. *)
Fixpoint drop_chars (n : nat) (s : string) : string :=
  match n, s with
  | O, _ => s
  | S n, String _ t => drop_chars n t
  | S _, EmptyString => EmptyString
  end.

(** What [__init__] builds: a [dvdreadsrc] feeding a [decodebin2], or a
    [uridecodebin].  The arguments are the values that [__init__] hands to
    [set_property] for [device], [title] and [uri]; what the element makes
    of them is not modelled. *)
Inductive Graph :=
| DvdReadSrc (device : string) (title : Z)
| UriDecodeBin (uri : string).

Section FrontEnd.

Variable abspath : string -> string.
Variable int_of_str : string -> result Z.

(** The choice made by lines 133 to 169 of [__init__], for runtime calls
    that succeed. *)
Definition init_graph (filename : string) : result Graph :=
  if String.prefix "dvd://" filename then
    let parts := split_char "@"%char filename in
    if (1 <? List.length parts)%nat then
      let device := drop_chars 6 (nth 0 parts EmptyString) in
      let? title := int_of_str (nth 1 parts EmptyString) in
      Ok (DvdReadSrc device title)
    else Ok (UriDecodeBin filename)
  else if String.prefix "v4l://" filename then Ok (UriDecodeBin filename)
  else if String.prefix "v4l2://" filename then Ok (UriDecodeBin filename)
  else if String.prefix "file://" filename then Ok (UriDecodeBin filename)
  else Ok (UriDecodeBin ("file://" +:+ abspath filename)).

End FrontEnd.

(** *** [_time_to_string] *)

(** [gst.MSECOND], in nanoseconds. *)
Definition MSECOND : Z := 1000000.

(** The three numbers that [_time_to_string] prints; [/] and [%] on Python
    integers round toward minus infinity, as [Z.div] and [Z.modulo] do for a
    positive divisor. *)
Definition time_fields (value : Z) : Z * Z * Z :=
  let ms := value / MSECOND in
  let sec := ms / 1000 in
  let ms := ms mod 1000 in
  let min := sec / 60 in
  let sec := sec mod 60 in
  (min, sec, ms).

(** ["%<width>d" % z]: the decimal digits of [z], with a minus sign when
    negative, right-justified with blanks in [width] columns. *)
Fixpoint blanks (n : nat) : string :=
  match n with
  | O => EmptyString
  | S n => String " "%char (blanks n)
  end.

Definition format_d (width : nat) (z : Z) : string :=
  blanks (width - String.length (pretty z)) +:+ pretty z.

(** A string that starts with a character other than a blank. *)
Definition starts_solid (s : string) : Prop :=
  match s with
  | EmptyString => False
  | String c _ => c <> " "%char
  end.

(** ["%2dm %2ds %3d" % (min, sec, ms)]. *)
Definition _time_to_string (value : Z) : string :=
  let '(min, sec, ms) := time_fields value in
  format_d 2 min +:+ "m " +:+ format_d 2 sec +:+ "s " +:+ format_d 3 ms.

(** *** Definitions used by the further statements *)

(** The value that a tag list gives a key: that of its last entry for the
    key. *)
Fixpoint last_value (key : string) (taglist : list (string * value))
  : option value :=
  match taglist with
  | [] => None
  | (k, v) :: rest =>
      match last_value key rest with
      | Some w => Some w
      | None => if String.eqb k key then Some v else None
      end
  end.

Definition is_idle (ev : event) : bool :=
  match ev with
  | EvIdle => true
  | _ => false
  end.

(** A new-pad event whose descriptor is classified as audio or video. *)
Definition recognizes (ev : event) : bool :=
  match ev with
  | EvNewPad caps => contains "audio" caps || contains "video" caps
  | _ => false
  end.

(** The numbers in the names of the fakesinks added so far. *)
Definition sink_numbers (d : Discoverer) : list Z :=
  map (fun c => sink_number (fst c)) (children d).

(** Instances of the two library functions for the examples: a working
    directory [/home/user] without normalisation, and the reading of a
    non-empty string of decimal digits (Python's [int] accepts these, and
    more). *)
Definition example_abspath (path : string) : string :=
  if String.prefix "/" path then path else "/home/user/" +:+ path.

Fixpoint digits_value (acc : Z) (s : string) : result Z :=
  match s with
  | EmptyString => Ok acc
  | String c t =>
      match Ascii.is_nat c with
      | Some n => digits_value (10 * acc + Z.of_nat n) t
      | None => Raise ValueError
      end
  end.

Definition example_int (s : string) : result Z :=
  match s with
  | EmptyString => Raise ValueError
  | _ => digits_value 0 s
  end.

(** The early-completion test of [_notify_caps_cb] on a caps with
    descriptor [str], read with [recorded]: no more pads are to come, and
    the other kind is not recognized or has its capability. *)
Definition caps_complete (str : string) (d : Discoverer) : bool :=
  if contains "audio" str
  then _nomorepads d && (negb (is_video d) || recorded (videocaps d))
  else if contains "video" str
  then _nomorepads d && (negb (is_audio d) || recorded (audiocaps d))
  else false.

(** The fields that [_notify_caps_cb] reads from the first structure of a
    caps with descriptor [str], in the order of the reads. *)
Definition caps_fields (str : string) : list string :=
  if contains "audio" str then
    ["rate"; "width"; "channels"]
    ++ (if contains "x-raw-float" str then [] else ["depth"])
  else if contains "video" str then ["width"; "height"; "framerate"]
  else [].

Definition lacks (st : gmap string value) (key : string) : bool :=
  match st !! key with
  | Some _ => false
  | None => true
  end.

(** A locator that starts with one of the four schemes that [__init__]
    tests for. *)
Definition has_scheme (s : string) : bool :=
  String.prefix "dvd://" s || String.prefix "v4l://" s
  || String.prefix "v4l2://" s || String.prefix "file://" s.

(** * Properties *)

(** ** Evaluation of method bodies *)

(** [_finished] is kept folded during evaluation and replaced by its closed
    form through [finished_run]. *)
Arguments _finished : simpl never.
Arguments after_finished : simpl never.

Ltac mstep :=
  unfold exec, _timed_out_or_eos, _stop, _bus_message_cb, _unknown_type_cb,
    _have_type_cb, _no_more_pads_cb, _new_decoded_pad_cb, add_fakesink_queue,
    emit_discovered, bus_remove_signal_watch, source_remove, timeout_add,
    idle_add_stop, set_state, caps_getitem, bind, ret, gets, modify, raise,
    lift in *;
  cbn in *.

Lemma finished_run (success : bool) (d : Discoverer) :
  bus d = true ->
  _finished success d = (Ok false, after_finished success d).
Proof.
  intros Hbus. unfold _finished, after_finished. mstep. rewrite Hbus. cbn.
  destruct (Z.eqb (_timeoutid d) 0); reflexivity.
Qed.

Lemma finished_no_bus (success : bool) (d : Discoverer) :
  bus d = false ->
  _finished success d = (Raise (AttributeError "bus"), set__success success d).
Proof.
  intros Hbus. unfold _finished. mstep. rewrite Hbus. reflexivity.
Qed.

Lemma ctl_after_finished (b b' : bool) (d d' : Discoverer) :
  ctl d = ctl d' -> ctl (after_finished b d) = ctl (after_finished b' d').
Proof.
  intros H. unfold ctl in H.
  injection H as Hb Hw Hh Hn Ht Hi Hp He Hf Hid.
  unfold after_finished. rewrite Hid.
  destruct (Z.eqb (_timeoutid d') 0); unfold ctl; cbn; congruence.
Qed.

(** ** Closed forms of the methods *)

Lemma timed_out_or_eos_run (d : Discoverer) :
  bus d = true ->
  exec _timed_out_or_eos d = after_finished (eos_outcome d) d.
Proof.
  intros Hbus. unfold eos_outcome. mstep.
  destruct ((negb (is_audio d) && negb (is_video d))
            || (is_audio d && negb (truthy (audiocaps d)))
            || (is_video d && negb (truthy (videocaps d))));
    rewrite finished_run by exact Hbus; reflexivity.
Qed.

Lemma stop_run (d : Discoverer) :
  exec _stop d =
  set_emitted (emitted d ++ [_success d])
    (set_pipeline_state STATE_READY (set_finished true d)).
Proof. reflexivity. Qed.

Lemma unknown_type_run (caps : string) (d : Discoverer) :
  bus d = true ->
  exec (_unknown_type_cb caps) d =
  let d1 := set_otherstreams (otherstreams d ++ [caps]) d in
  if negb (is_video d) && negb (is_audio d)
  then after_finished false (set_finished true d1)
  else d1.
Proof.
  intros Hbus. mstep.
  destruct (negb (is_video d) && negb (is_audio d)); [|reflexivity].
  rewrite finished_run by exact Hbus. reflexivity.
Qed.

(** ** Frame properties: what each handler leaves alone *)

(** [_finished] only touches [_success], the bus watch, the timeout and the
    idle queue. *)
Ltac after_finished_frame :=
  intros; unfold after_finished;
  match goal with |- context [Z.eqb ?a ?b] => destruct (Z.eqb a b) end;
  reflexivity.

Lemma after_finished_mimetype (b : bool) (d : Discoverer) :
  mimetype (after_finished b d) = mimetype d.
Proof. after_finished_frame. Qed.

Lemma after_finished_audiocaps (b : bool) (d : Discoverer) :
  audiocaps (after_finished b d) = audiocaps d.
Proof. after_finished_frame. Qed.

Lemma after_finished_videocaps (b : bool) (d : Discoverer) :
  videocaps (after_finished b d) = videocaps d.
Proof. after_finished_frame. Qed.

Lemma after_finished_videowidth (b : bool) (d : Discoverer) :
  videowidth (after_finished b d) = videowidth d.
Proof. after_finished_frame. Qed.

Lemma after_finished_videoheight (b : bool) (d : Discoverer) :
  videoheight (after_finished b d) = videoheight d.
Proof. after_finished_frame. Qed.

Lemma after_finished_videorate (b : bool) (d : Discoverer) :
  videorate (after_finished b d) = videorate d.
Proof. after_finished_frame. Qed.

Lemma after_finished_audiofloat (b : bool) (d : Discoverer) :
  audiofloat (after_finished b d) = audiofloat d.
Proof. after_finished_frame. Qed.

Lemma after_finished_audiorate (b : bool) (d : Discoverer) :
  audiorate (after_finished b d) = audiorate d.
Proof. after_finished_frame. Qed.

Lemma after_finished_audiodepth (b : bool) (d : Discoverer) :
  audiodepth (after_finished b d) = audiodepth d.
Proof. after_finished_frame. Qed.

Lemma after_finished_audiowidth (b : bool) (d : Discoverer) :
  audiowidth (after_finished b d) = audiowidth d.
Proof. after_finished_frame. Qed.

Lemma after_finished_audiochannels (b : bool) (d : Discoverer) :
  audiochannels (after_finished b d) = audiochannels d.
Proof. after_finished_frame. Qed.

Lemma after_finished_audiolength (b : bool) (d : Discoverer) :
  audiolength (after_finished b d) = audiolength d.
Proof. after_finished_frame. Qed.

Lemma after_finished_videolength (b : bool) (d : Discoverer) :
  videolength (after_finished b d) = videolength d.
Proof. after_finished_frame. Qed.

Lemma after_finished_is_video (b : bool) (d : Discoverer) :
  is_video (after_finished b d) = is_video d.
Proof. after_finished_frame. Qed.

Lemma after_finished_is_audio (b : bool) (d : Discoverer) :
  is_audio (after_finished b d) = is_audio d.
Proof. after_finished_frame. Qed.

Lemma after_finished_otherstreams (b : bool) (d : Discoverer) :
  otherstreams (after_finished b d) = otherstreams d.
Proof. after_finished_frame. Qed.

Lemma after_finished_finished (b : bool) (d : Discoverer) :
  finished (after_finished b d) = finished d.
Proof. after_finished_frame. Qed.

Lemma after_finished_sinknumber (b : bool) (d : Discoverer) :
  sinknumber (after_finished b d) = sinknumber d.
Proof. after_finished_frame. Qed.

Lemma after_finished_tags (b : bool) (d : Discoverer) :
  tags (after_finished b d) = tags d.
Proof. after_finished_frame. Qed.

Lemma after_finished__nomorepads (b : bool) (d : Discoverer) :
  _nomorepads (after_finished b d) = _nomorepads d.
Proof. after_finished_frame. Qed.

Lemma after_finished__max_interleave (b : bool) (d : Discoverer) :
  _max_interleave (after_finished b d) = _max_interleave d.
Proof. after_finished_frame. Qed.

Lemma after_finished_bus (b : bool) (d : Discoverer) :
  bus (after_finished b d) = bus d.
Proof. after_finished_frame. Qed.

Lemma after_finished_bus_handlers (b : bool) (d : Discoverer) :
  bus_handlers (after_finished b d) = bus_handlers d.
Proof. after_finished_frame. Qed.

Lemma after_finished_pipeline_state (b : bool) (d : Discoverer) :
  pipeline_state (after_finished b d) = pipeline_state d.
Proof. after_finished_frame. Qed.

Lemma after_finished_children (b : bool) (d : Discoverer) :
  children (after_finished b d) = children d.
Proof. after_finished_frame. Qed.

Lemma after_finished_emitted (b : bool) (d : Discoverer) :
  emitted (after_finished b d) = emitted d.
Proof. after_finished_frame. Qed.

Lemma after_finished_success (b : bool) (d : Discoverer) :
  _success (after_finished b d) = b.
Proof. after_finished_frame. Qed.

Lemma after_finished_glib_next (b : bool) (d : Discoverer) :
  glib_next (after_finished b d) = glib_next d + 1.
Proof. after_finished_frame. Qed.

Lemma after_finished_bus_watch (b : bool) (d : Discoverer) :
  bus_watch (after_finished b d) = Nat.pred (bus_watch d).
Proof. after_finished_frame. Qed.

Lemma after_finished_timeoutid (b : bool) (d : Discoverer) :
  _timeoutid (after_finished b d) = 0.
Proof.
  unfold after_finished.
  destruct (Z.eqb (_timeoutid d) 0) eqn:E; cbn; [|reflexivity].
  apply Z.eqb_eq, E.
Qed.

Create Rewrite HintDb frame.
#[global] Hint Rewrite
  after_finished_mimetype after_finished_audiocaps
  after_finished_videocaps after_finished_videowidth
  after_finished_videoheight after_finished_videorate
  after_finished_audiofloat after_finished_audiorate
  after_finished_audiodepth after_finished_audiowidth
  after_finished_audiochannels after_finished_audiolength
  after_finished_videolength after_finished_is_video
  after_finished_is_audio after_finished_otherstreams
  after_finished_finished after_finished_sinknumber after_finished_tags
  after_finished__nomorepads after_finished__max_interleave
  after_finished_bus after_finished_bus_handlers
  after_finished_pipeline_state after_finished_children
  after_finished_emitted after_finished_success after_finished_glib_next
  after_finished_bus_watch after_finished_timeoutid
  : frame.

Lemma new_decoded_pad_frame (caps : string) (d : Discoverer) :
  let d' := exec (_new_decoded_pad_cb caps) d in
  ctl d' = ctl d /\ audiocaps d' = audiocaps d /\ videocaps d' = videocaps d
  /\ audiolength d' = audiolength d /\ videolength d' = videolength d
  /\ otherstreams d' = otherstreams d.
Proof.
  mstep.
  destruct (contains "audio" caps); [|destruct (contains "video" caps)];
    cbn; try (destruct (make_queue (_max_interleave d))); cbn; auto 10.
Qed.

Lemma notify_caps_frame (negotiated : option Caps) (duration : option Z)
    (d : Discoverer) :
  bus d = true ->
  let d' := exec (_notify_caps_cb negotiated duration) d in
  (ctl d' = ctl d \/ ctl d' = ctl (after_finished true d))
  /\ (audiocaps d' = audiocaps d /\ audiolength d' = audiolength d
      \/ truthy (audiocaps d') = true)
  /\ (videocaps d' = videocaps d /\ videolength d' = videolength d
      \/ truthy (videocaps d') = true).
Proof.
  intros Hbus. unfold _notify_caps_cb.
  destruct negotiated as [caps|]; [|cbn; auto].
  destruct (caps_nonzero caps) eqn:Hnz; [|cbn; auto]. cbn [negb].
  destruct caps as [str sts]. cbn in Hnz. 
  destruct sts as [|st sts]; [discriminate|].
  cbn [to_string].
  destruct (contains "audio" str).
  - mstep.
    destruct (st !! "rate"); cbn; [|auto].
    destruct (st !! "width"); cbn; [|auto].
    destruct (st !! "channels"); cbn; [|auto].
    destruct (contains "x-raw-float" str); cbn.
    + destruct (_nomorepads d
                && (negb (is_video d) || truthy (videocaps d))); cbn; auto.
      rewrite finished_run by exact Hbus. cbn. autorewrite with frame. cbn.
      split; [right; apply ctl_after_finished; reflexivity|].
      split; [right|left]; auto.
    + destruct (st !! "depth"); cbn; [|auto].
      destruct (_nomorepads d
                && (negb (is_video d) || truthy (videocaps d))); cbn; auto.
      rewrite finished_run by exact Hbus. cbn. autorewrite with frame. cbn.
      split; [right; apply ctl_after_finished; reflexivity|].
      split; [right|left]; auto.
  - destruct (contains "video" str); [|cbn; auto].
    mstep.
    destruct (st !! "width"); cbn; [|auto].
    destruct (st !! "height"); cbn; [|auto].
    destruct (st !! "framerate"); cbn; [|auto].
    destruct (_nomorepads d
              && (negb (is_audio d) || truthy (audiocaps d))); cbn; auto.
    rewrite finished_run by exact Hbus. cbn. autorewrite with frame. cbn.
    split; [right; apply ctl_after_finished; reflexivity|].
    split; [left|right]; auto.
Qed.

(** ** The session invariant *)

Lemma terminal_false (d : Discoverer) :
  terminal d = false -> finished d = false /\ idles d = [].
Proof.
  unfold terminal. intros H. apply orb_false_iff in H as [Hf Hi].
  split; [exact Hf|]. destruct (idles d); [reflexivity|discriminate].
Qed.

Lemma inv_pre (d : Discoverer) : Inv d -> Pre d.
Proof.
  intros [Hb Hh Ha Hv Hfr Hnd Hph]. split; auto.
  destruct (terminal d) eqn:Ht; [left; exact Hph|right].
  apply terminal_false in Ht as [_ Hi]. tauto.
Qed.

Lemma ctl_terminal (d d' : Discoverer) :
  ctl d = ctl d' -> terminal d = terminal d' /\ playing d = playing d'.
Proof.
  unfold ctl, terminal, playing. intros H.
  injection H as Hb Hw Hh Hn Ht Hi Hp He Hf Hid.
  rewrite Hf, Hi, Hp. split; reflexivity.
Qed.

Lemma inv_ext (d d' : Discoverer) :
  ctl d = ctl d' ->
  unset_or_truthy (audiocaps d') -> unset_or_truthy (videocaps d') ->
  Inv d -> Inv d'.
Proof.
  intros H Ha Hv [Hb Hh _ _ Hfr Hnd Hph].
  destruct (ctl_terminal _ _ H) as [Ht Hpl].
  unfold ctl in H. injection H as Eb Ew Eh En Et Ei Ep Ee Ef Eid.
  split; try congruence.
  all: try (rewrite <- En, <- Ei; exact Hfr).
  all: rewrite <- Ht, <- Ew, <- Et, <- Eid, <- En, <- Ee, <- Hpl; exact Hph.
Qed.

Lemma pre_ext (d d' : Discoverer) :
  bus d = bus d' -> bus_watch d = bus_watch d' ->
  bus_handlers d = bus_handlers d' -> glib_next d = glib_next d' ->
  timeouts d = timeouts d' -> idles d = idles d' ->
  _timeoutid d = _timeoutid d' ->
  unset_or_truthy (audiocaps d') -> unset_or_truthy (videocaps d') ->
  Pre d -> Pre d'.
Proof.
  intros Eb Ew Eh En Et Ei Eid Ha Hv [Hb Hh _ _ Hfr Hnd Hph].
  split; try congruence.
  all: try (rewrite <- En, <- Ei; exact Hfr).
  all: rewrite <- Ew, <- Et, <- Eid, <- En, <- Ei; exact Hph.
Qed.

Lemma nodup_snoc (l : list Z) (n : Z) :
  Forall (fun i => i < n) l -> NoDup l -> NoDup (l ++ [n]).
Proof.
  intros Hlt Hnd. apply NoDup_app. split; [exact Hnd|]. split.
  - intros x Hx Hn. apply list_elem_of_singleton in Hn. subst x.
    rewrite Forall_forall in Hlt. specialize (Hlt n Hx). lia.
  - apply NoDup_singleton.
Qed.

Lemma terminal_pending (d : Discoverer) (l : list Z) (n : Z) :
  idles d = l ++ [n] -> terminal d = true.
Proof.
  unfold terminal. intros ->. rewrite length_app. cbn.
  rewrite Nat.add_1_r. apply orb_true_r.
Qed.

Lemma inv_after_finished (b : bool) (d : Discoverer) :
  Pre d -> Inv (after_finished b d).
Proof.
  intros [Hb Hh Ha Hv Hfr Hnd Hph].
  assert (Hl : idles (after_finished b d) = idles d ++ [glib_next d]).
  { unfold after_finished. destruct (Z.eqb (_timeoutid d) 0) eqn:E; cbn.
    - reflexivity.
    - destruct Hph as [(_ & _ & H0)|(_ & _ & _ & Hnil)].
      + rewrite H0 in E. discriminate.
      + rewrite Hnil. reflexivity. }
  assert (Ht : timeouts (after_finished b d) = []).
  { unfold after_finished. destruct (Z.eqb (_timeoutid d) 0) eqn:E; cbn.
    - destruct Hph as [(_ & H & _)|(_ & _ & H & _)]; [exact H|].
      apply Z.eqb_eq in E. lia.
    - destruct Hph as [(_ & _ & H0)|(_ & H & _)].
      + rewrite H0 in E. discriminate.
      + rewrite H. cbn. rewrite Z.eqb_refl. reflexivity. }
  split; autorewrite with frame; auto.
  - rewrite Hl. apply Forall_app. split.
    + eapply Forall_impl; [exact Hfr|]. cbn. intros; lia.
    + constructor; [lia|constructor].
  - rewrite Hl. apply nodup_snoc; assumption.
  - rewrite (terminal_pending _ _ _ Hl). repeat split; auto.
    destruct Hph as [(-> & _)|(-> & _)]; reflexivity.
Qed.

(** ** One event, seen from the completion logic *)

Lemma set_finished_same (d : Discoverer) :
  ctl (set_finished (finished d || false) d) = ctl d.
Proof. rewrite orb_false_r. reflexivity. Qed.

Lemma inv_running (d : Discoverer) :
  Inv d -> terminal d = false ->
  bus_watch d = 1%nat /\ timeouts d = [_timeoutid d]
  /\ 0 < _timeoutid d < glib_next d /\ emitted d = [] /\ playing d = true
  /\ idles d = [] /\ finished d = false.
Proof.
  intros [_ _ _ _ _ _ Hph] Ht. rewrite Ht in Hph.
  apply terminal_false in Ht. tauto.
Qed.

Lemma inv_terminal (d : Discoverer) :
  Inv d -> terminal d = true ->
  bus_watch d = 0%nat /\ timeouts d = [] /\ _timeoutid d = 0.
Proof. intros [_ _ _ _ _ _ Hph] Ht. rewrite Ht in Hph. exact Hph. Qed.

Lemma filter_head (id : Z) (rest : list Z) :
  NoDup (id :: rest) ->
  filter (fun i => negb (Z.eqb i id)) (id :: rest) = rest.
Proof.
  intros Hnd. apply NoDup_cons in Hnd as [Hnotin _].
  cbn. rewrite Z.eqb_refl. cbn.
  induction rest as [|x rest IH]; [reflexivity|].
  cbn. destruct (Z.eqb x id) eqn:E.
  - apply Z.eqb_eq in E. subst x. exfalso. apply Hnotin. left.
  - cbn. f_equal. apply IH. intros H. apply Hnotin. right. exact H.
Qed.

Lemma deliver_step (ev : event) (d : Discoverer) :
  Inv d ->
  let d' := deliver ev d in
  ctl_step ev d d'
  /\ (audiocaps d' = audiocaps d /\ audiolength d' = audiolength d
      \/ truthy (audiocaps d') = true)
  /\ (videocaps d' = videocaps d /\ videolength d' = videolength d
      \/ truthy (videocaps d') = true).
Proof.
  intros HI. pose proof (inv_bus _ HI) as Hbus.
  cbv zeta.
  destruct ev as [msg|id| |caps| |caps|caps|sink neg dur|sink]; cbn [deliver].
  - (* bus message *)
    destruct (0 <? bus_watch d)%nat eqn:Hw;
      [|split; [apply step_same; reflexivity|auto]].
    destruct (terminal d) eqn:Ht.
    { destruct (inv_terminal _ HI Ht) as (H0 & _). rewrite H0 in Hw.
      discriminate. }
    rewrite (inv_handlers _ HI). cbn.
    destruct msg as [|tl| |].
    + change (exec (_bus_message_cb MESSAGE_EOS) d)
        with (exec _timed_out_or_eos d).
      rewrite timed_out_or_eos_run by exact Hbus.
      autorewrite with frame. split; [|auto].
      eapply step_finish with (b := eos_outcome d) (f := false);
        [|left; exact Ht].
      apply ctl_after_finished. symmetry. apply set_finished_same.
    + split; [apply step_same; reflexivity|auto].
    + mstep. rewrite finished_run by exact Hbus. cbn.
      autorewrite with frame. split; [|auto].
      eapply step_finish with (b := false) (f := false); [|left; exact Ht].
      apply ctl_after_finished. symmetry. apply set_finished_same.
    + split; [apply step_same; reflexivity|auto].
  - (* timeout *)
    destruct (existsb (Z.eqb id) (timeouts d)) eqn:Hex;
      [|split; [apply step_same; reflexivity|auto]].
    destruct (terminal d) eqn:Ht.
    { destruct (inv_terminal _ HI Ht) as (_ & H0 & _). rewrite H0 in Hex.
      discriminate. }
    destruct (inv_running _ HI Ht) as (_ & Hto & Hlt & _ & _ & Hid & _).
    rewrite Hto in Hex. cbn in Hex. rewrite orb_false_r in Hex.
    apply Z.eqb_eq in Hex. subst id.
    rewrite timed_out_or_eos_run by exact Hbus.
    set (b := eos_outcome d).
    split; [|unfold exec, source_remove, modify; cbn;
             autorewrite with frame; auto].
    eapply step_finish with (b := b) (f := false); [|left; exact Ht].
    rewrite (ctl_after_finished b b _ d (set_finished_same d)).
    unfold exec, source_remove, modify, after_finished, ctl. cbn.
    assert (E : Z.eqb (_timeoutid d) 0 = false) by (apply Z.eqb_neq; lia).
    rewrite E. cbn. rewrite Hto, Hid. cbn. rewrite Z.eqb_refl. cbn.
    assert (E' : Z.eqb (glib_next d) (_timeoutid d) = false)
      by (apply Z.eqb_neq; lia).
    rewrite E'. reflexivity.
  - (* idle *)
    destruct (idles d) as [|id rest] eqn:Hid;
      [split; [apply step_same; reflexivity|auto]|].
    split; [|cbn; auto].
    assert (Ht : terminal d = true)
      by (unfold terminal; rewrite Hid; apply orb_true_r).
    destruct (inv_terminal _ HI Ht) as (_ & Hto & _).
    eapply step_stop; [exact Hid|].
    unfold exec, _stop, source_remove, set_state, emit_discovered, bind,
      modify, gets, ret, ctl. cbn.
    rewrite Hto, Hid. rewrite filter_head; [reflexivity|].
    rewrite <- Hid. apply (inv_nodup _ HI).
  - (* new pad *)
    destruct (playing d); [|split; [apply step_same; reflexivity|auto]].
    destruct (new_decoded_pad_frame caps d) as (Hc & Ha & Hv & Hal & Hvl & _).
    split; [apply step_same; exact Hc|auto].
  - (* no more pads *)
    destruct (playing d); (split; [apply step_same; reflexivity|auto]).
  - (* unknown type *)
    destruct (playing d) eqn:Hp; [|split; [apply step_same; reflexivity|auto]].
    rewrite unknown_type_run by exact Hbus. cbn.
    destruct (negb (is_video d) && negb (is_audio d));
      [|split; [apply step_same; reflexivity|auto]].
    autorewrite with frame. split; [|auto].
    eapply step_finish with (b := false) (f := true);
      [|right; split; [exact Hp|reflexivity]].
    apply ctl_after_finished. rewrite orb_true_r. reflexivity.
  - (* type found *)
    destruct (playing d); (split; [apply step_same; reflexivity|auto]).
  - (* negotiated caps *)
    destruct (playing d && (sink <? List.length (children d))%nat) eqn:Hp;
      [|split; [apply step_same; reflexivity|auto]].
    apply andb_true_iff in Hp as [Hp _].
    destruct (notify_caps_frame neg dur d Hbus) as (Hc & Ha & Hv).
    split; [|auto].
    destruct Hc as [Hc|Hc]; [apply step_same; exact Hc|].
    eapply step_finish with (b := true) (f := false);
      [|right; split; [exact Hp|reflexivity]].
    rewrite Hc. apply ctl_after_finished. symmetry. apply set_finished_same.
  - (* overrun *)
    destruct (playing d); [|split; [apply step_same; reflexivity|auto]].
    unfold overrun_child.
    destruct (nth_error (children d) sink) as [[s q]|];
      (split; [apply step_same; reflexivity|auto]).
Qed.

Lemma idles_after_finished (b : bool) (d : Discoverer) :
  Pre d -> idles (after_finished b d) = idles d ++ [glib_next d].
Proof.
  intros [_ _ _ _ _ _ Hph].
  unfold after_finished. destruct (Z.eqb (_timeoutid d) 0) eqn:E; cbn.
  - reflexivity.
  - destruct Hph as [(_ & _ & H0)|(_ & _ & _ & Hnil)].
    + rewrite H0 in E. discriminate.
    + rewrite Hnil. reflexivity.
Qed.

Lemma pre_set_finished (f : bool) (d : Discoverer) :
  Pre d -> Pre (set_finished f d).
Proof.
  intros HP. eapply pre_ext; [..|exact HP]; try reflexivity;
    [apply (pre_acaps _ HP)|apply (pre_vcaps _ HP)].
Qed.

Lemma keep_unset_or_truthy (f f' : capsfield) (P : Prop) :
  unset_or_truthy f -> f' = f /\ P \/ truthy f' = true -> unset_or_truthy f'.
Proof. intros H [[-> _]|H']; [exact H|right; exact H']. Qed.

Lemma inv_deliver (ev : event) (d : Discoverer) :
  Inv d -> Inv (deliver ev d).
Proof.
  intros HI. destruct (deliver_step ev d HI) as (Hstep & Ha & Hv).
  apply (keep_unset_or_truthy _ _ _ (inv_acaps _ HI)) in Ha.
  apply (keep_unset_or_truthy _ _ _ (inv_vcaps _ HI)) in Hv.
  destruct Hstep as [Hc|b f Hc _|id rest Hid Hc].
  - eapply inv_ext; [symmetry; exact Hc|exact Ha|exact Hv|exact HI].
  - eapply inv_ext; [symmetry; exact Hc|exact Ha|exact Hv|].
    apply inv_after_finished, pre_set_finished, inv_pre, HI.
  - eapply inv_ext; [symmetry; exact Hc|exact Ha|exact Hv|].
    assert (Ht : terminal d = true)
      by (unfold terminal; rewrite Hid; apply orb_true_r).
    destruct (inv_terminal _ HI Ht) as (Hw & Hto & Htid).
    pose proof (inv_fresh _ HI) as Hfr. pose proof (inv_nodup _ HI) as Hnd.
    rewrite Hid in Hfr, Hnd.
    apply Forall_cons in Hfr as [_ Hfr]. apply NoDup_cons in Hnd as [_ Hnd].
    split; cbn; try apply HI; auto.
Qed.

Lemma inv_discover (mi : number) (play : bool) :
  Inv (exec (discover play) (__init__ mi)).
Proof.
  destruct play.
  - split; cbn; try (left; reflexivity); repeat constructor; lia.
  - unfold discover. mstep. rewrite finished_run by reflexivity. cbn.
    apply inv_after_finished.
    split; cbn;
      first [ reflexivity | left; reflexivity
            | right; repeat split; (reflexivity || lia) | constructor ].
Qed.

Lemma inv_run (evs : list event) (d : Discoverer) :
  Inv d -> Inv (run evs d).
Proof.
  revert d. induction evs as [|ev evs IH]; intros d HI; [exact HI|].
  cbn. apply IH, inv_deliver, HI.
Qed.

Lemma inv_session (mi : number) (play : bool) (evs : list event) :
  Inv (session mi play evs).
Proof. apply inv_run, inv_discover. Qed.

(** ** Counting notifications *)

Lemma ctl_notifications (d d' : Discoverer) :
  ctl d = ctl d' -> notifications d = notifications d'.
Proof.
  unfold ctl, notifications. intros H.
  injection H as Hb Hw Hh Hn Ht Hi Hp He Hf Hid. rewrite He, Hi. reflexivity.
Qed.

Lemma notifications_running (ev : event) (d : Discoverer) :
  Inv d -> terminal d = false ->
  (notifications (deliver ev d) <= 1)%nat.
Proof.
  intros HI Ht.
  destruct (inv_running _ HI Ht) as (_ & _ & _ & Hem & _ & Hid & _).
  destruct (deliver_step ev d HI) as ([Hc|b f Hc _|id rest Hid' _] & _).
  - rewrite (ctl_notifications _ _ Hc). unfold notifications.
    rewrite Hem, Hid. cbn. lia.
  - rewrite (ctl_notifications _ _ Hc). unfold notifications.
    rewrite idles_after_finished
      by (apply pre_set_finished, inv_pre, HI).
    autorewrite with frame. cbn. rewrite Hem, Hid. cbn. lia.
  - rewrite Hid in Hid'. discriminate.
Qed.

Lemma notifications_terminal (ev : event) (d : Discoverer) :
  Inv d -> terminal d = true -> playing d && ends_session ev = false ->
  notifications (deliver ev d) = notifications d.
Proof.
  intros HI Ht Hq.
  destruct (deliver_step ev d HI) as ([Hc|b f Hc Hside|id rest Hid Hc] & _).
  - apply ctl_notifications, Hc.
  - destruct Hside as [Hside|[Hp He]]; [congruence|].
    rewrite Hp, He in Hq. discriminate.
  - rewrite (ctl_notifications _ _ Hc). unfold notifications. cbn.
    rewrite Hid, length_app. cbn. lia.
Qed.

Lemma notifications_calm (evs : list event) (d : Discoverer) :
  Inv d -> (notifications d <= 1)%nat -> calm evs d = true ->
  (notifications (run evs d) <= 1)%nat.
Proof.
  revert d. induction evs as [|ev evs IH]; intros d HI Hn Hcalm; [exact Hn|].
  cbn in Hcalm. apply andb_true_iff in Hcalm as [Hev Hcalm].
  cbn. apply IH; [apply inv_deliver, HI| |exact Hcalm].
  destruct (terminal d) eqn:Ht.
  - rewrite notifications_terminal; [exact Hn|exact HI|exact Ht|].
    cbn in Hev. destruct (playing d && ends_session ev); [discriminate|].
    reflexivity.
  - apply notifications_running; assumption.
Qed.

(** ** Completion at end-of-stream and at the timeout *)

Lemma truthy_recorded (f : capsfield) :
  unset_or_truthy f -> truthy f = recorded f.
Proof.
  intros [->|H]; [reflexivity|]. rewrite H. destruct f; [discriminate|].
  reflexivity.
Qed.

Lemma eos_outcome_criterion (d : Discoverer) :
  Inv d -> eos_outcome d = success_criterion d.
Proof.
  intros HI. unfold eos_outcome, success_criterion.
  rewrite (truthy_recorded _ (inv_acaps _ HI)).
  rewrite (truthy_recorded _ (inv_vcaps _ HI)).
  destruct (is_audio d), (is_video d), (recorded (audiocaps d)),
    (recorded (videocaps d)); reflexivity.
Qed.

Lemma eta_idles_timeouts (d : Discoverer) :
  set_idles (idles d) (set_timeouts (timeouts d) d) = d.
Proof. destruct d; reflexivity. Qed.

Lemma filter_all (id : Z) (l : list Z) :
  Forall (fun i => i <> id) l ->
  filter (fun i => negb (Z.eqb i id)) l = l.
Proof.
  induction 1 as [|x l Hx _ IH]; [reflexivity|].
  cbn. apply Z.eqb_neq in Hx. rewrite Hx. cbn. f_equal. exact IH.
Qed.

Lemma source_remove_absent (id : Z) (d : Discoverer) :
  Forall (fun i => i <> id) (timeouts d) ->
  Forall (fun i => i <> id) (idles d) ->
  exec (source_remove id) d = d.
Proof.
  intros Ht Hi. unfold exec, source_remove, modify. cbn.
  rewrite (filter_all _ _ Ht), (filter_all _ _ Hi).
  apply eta_idles_timeouts.
Qed.

(** In a running session, delivering end-of-stream, or the timeout, has the
    closed form of one [_finished] call with the success criterion. *)
Lemma deliver_eos_running (d : Discoverer) :
  Inv d -> terminal d = false ->
  deliver (EvBus MESSAGE_EOS) d = after_finished (success_criterion d) d.
Proof.
  intros HI Ht. destruct (inv_running _ HI Ht) as (Hw & _).
  cbn [deliver]. rewrite Hw, (inv_handlers _ HI). cbn.
  change (exec (_bus_message_cb MESSAGE_EOS) d) with (exec _timed_out_or_eos d).
  rewrite timed_out_or_eos_run by apply HI.
  rewrite eos_outcome_criterion by exact HI. reflexivity.
Qed.

Lemma deliver_timeout_running (d : Discoverer) :
  Inv d -> terminal d = false ->
  deliver (EvTimeout (_timeoutid d)) d
  = after_finished (success_criterion d) d.
Proof.
  intros HI Ht.
  destruct (inv_running _ HI Ht) as (_ & Hto & Hlt & _ & _ & Hid & _).
  cbn [deliver]. rewrite Hto. cbn. rewrite Z.eqb_refl. cbn.
  rewrite timed_out_or_eos_run by apply HI.
  rewrite eos_outcome_criterion by exact HI.
  apply source_remove_absent.
  - pose proof (inv_after_finished (success_criterion d) d (inv_pre _ HI))
      as HI'.
    assert (Ht' : terminal (after_finished (success_criterion d) d) = true).
    { eapply terminal_pending. apply idles_after_finished, inv_pre, HI. }
    destruct (inv_terminal _ HI' Ht') as (_ & -> & _). constructor.
  - rewrite idles_after_finished by apply inv_pre, HI.
    rewrite Hid. cbn. constructor; [lia|constructor].
Qed.

Lemma deliver_idle_after_finished (b : bool) (d : Discoverer) :
  Inv d -> terminal d = false ->
  emitted (deliver EvIdle (after_finished b d)) = [b].
Proof.
  intros HI Ht.
  destruct (inv_running _ HI Ht) as (_ & _ & _ & Hem & _ & Hid & _).
  cbn [deliver]. rewrite idles_after_finished by apply inv_pre, HI.
  rewrite Hid. cbn. autorewrite with frame. rewrite Hem. reflexivity.
Qed.

(** ** A pending stop

    Between a terminal transition and the idle turn that runs [_stop], the
    object is Finishing.  What the stop will emit is settled then, unless a
    capabilities or unknown-type event arrives first. *)

Lemma not_playing_terminal (d : Discoverer) :
  Inv d -> playing d = false -> terminal d = true.
Proof.
  intros HI Hp. destruct (terminal d) eqn:Ht; [reflexivity|].
  destruct (inv_running _ HI Ht) as (_ & _ & _ & _ & Hp' & _). congruence.
Qed.

Lemma deliver_bus_terminal (msg : message) (d : Discoverer) :
  Inv d -> terminal d = true -> deliver (EvBus msg) d = d.
Proof.
  intros HI Ht. destruct (inv_terminal _ HI Ht) as (Hw & _).
  cbn [deliver]. rewrite Hw. reflexivity.
Qed.

Lemma deliver_timeout_terminal (id : Z) (d : Discoverer) :
  Inv d -> terminal d = true -> deliver (EvTimeout id) d = d.
Proof.
  intros HI Ht. destruct (inv_terminal _ HI Ht) as (_ & Hto & _).
  cbn [deliver]. rewrite Hto. reflexivity.
Qed.

Lemma deliver_not_playing (ev : event) (d : Discoverer) :
  Inv d -> playing d = false -> is_idle ev = false -> deliver ev d = d.
Proof.
  intros HI Hp Hev. pose proof (not_playing_terminal d HI Hp) as Ht.
  destruct ev; cbn [deliver]; rewrite ?Hp; try reflexivity.
  - apply deliver_bus_terminal; assumption.
  - apply deliver_timeout_terminal; assumption.
  - discriminate Hev.
Qed.

Lemma run_stopped (evs : list event) (d : Discoverer) :
  Inv d -> playing d = false -> idles d = [] -> run evs d = d.
Proof.
  intros HI Hp Hi. induction evs as [|ev evs IH]; [reflexivity|].
  cbn [run fold_left]. fold (run evs (deliver ev d)).
  assert (E : deliver ev d = d).
  { destruct (is_idle ev) eqn:Hev.
    - destruct ev; try discriminate Hev. cbn [deliver]. rewrite Hi.
      reflexivity.
    - apply deliver_not_playing; assumption. }
  rewrite E. exact IH.
Qed.

Lemma ctl_idles_emitted (d d' : Discoverer) :
  ctl d = ctl d' -> idles d = idles d' /\ emitted d = emitted d'.
Proof.
  unfold ctl. intros H.
  injection H as Hb Hw Hh Hn Ht Hi Hp He Hf Hid. split; assumption.
Qed.

Lemma pending_step (ev : event) (d : Discoverer) :
  Inv d -> terminal d = true ->
  terminal d && playing d && ends_session ev = false ->
  is_idle ev = false ->
  ctl (deliver ev d) = ctl d /\ _success (deliver ev d) = _success d.
Proof.
  intros HI Ht Hcalm Hev. rewrite Ht in Hcalm.
  destruct (playing d) eqn:Hp;
    [|rewrite deliver_not_playing by assumption; auto].
  cbn in Hcalm.
  destruct ev as [msg|id| |caps| |caps|caps|sink neg dur|sink];
    try discriminate; cbn [deliver]; rewrite ?Hp.
  - change (deliver (EvBus msg) d) with
      (if (0 <? bus_watch d)%nat
       then Nat.iter (bus_handlers d) (exec (_bus_message_cb msg)) d
       else d).
    destruct (inv_terminal _ HI Ht) as (-> & _). auto.
  - destruct (inv_terminal _ HI Ht) as (_ & -> & _). auto.
  - split; [apply new_decoded_pad_frame|].
    unfold _new_decoded_pad_cb. mstep.
    destruct (contains "audio" caps); [|destruct (contains "video" caps)];
      cbn; try (destruct (make_queue (_max_interleave d))); reflexivity.
  - auto.
  - auto.
  - unfold overrun_child.
    destruct (nth_error (children d) sink) as [[s q]|]; auto.
Qed.

(** From a Finishing object with one stop pending, a calm run emits
    nothing before the first idle turn and exactly the outcome of that
    moment from then on. *)
Lemma run_pending (evs : list event) (d : Discoverer) (id : Z) :
  Inv d -> idles d = [id] -> emitted d = [] -> calm evs d = true ->
  emitted (run evs d) = if existsb is_idle evs then [_success d] else [].
Proof.
  revert d. induction evs as [|ev evs IH]; intros d HI Hi He Hcalm;
    [exact He|].
  cbn [run fold_left existsb]. fold (run evs (deliver ev d)).
  cbn [calm] in Hcalm. apply andb_true_iff in Hcalm as [Hev Hcalm].
  apply negb_true_iff in Hev.
  assert (Ht : terminal d = true)
    by (unfold terminal; rewrite Hi; apply orb_true_r).
  destruct (is_idle ev) eqn:Hidle.
  - destruct ev; try discriminate Hidle. cbn [orb].
    pose proof (inv_deliver EvIdle d HI) as HI'.
    assert (Hd : deliver EvIdle d
                 = exec _stop (exec (source_remove id) d))
      by (cbn [deliver]; rewrite Hi; reflexivity).
    rewrite run_stopped; [| exact HI' | rewrite Hd; reflexivity |].
    + rewrite Hd. cbn. rewrite He. reflexivity.
    + rewrite Hd. cbn. rewrite Hi. cbn. rewrite Z.eqb_refl. reflexivity.
  - destruct (pending_step ev d HI Ht Hev Hidle) as [Hc Hs].
    destruct (ctl_idles_emitted _ _ Hc) as [Hi' He'].
    cbn [orb]. rewrite <- Hs.
    apply IH; [apply inv_deliver, HI|congruence|congruence|exact Hcalm].
Qed.

(** The object that [_finished] leaves of a running session has one stop
    pending and nothing emitted. *)
Lemma pending_after_finished (b : bool) (d : Discoverer) :
  Inv d -> terminal d = false ->
  let d' := after_finished b d in
  Inv d' /\ idles d' = [glib_next d] /\ emitted d' = []
  /\ _success d' = b.
Proof.
  intros HI Ht. cbv zeta.
  destruct (inv_running _ HI Ht) as (_ & _ & _ & Hem & _ & Hid & _).
  split; [apply inv_after_finished, inv_pre, HI|].
  split; [rewrite idles_after_finished by apply inv_pre, HI;
          rewrite Hid; reflexivity|].
  split; [autorewrite with frame; exact Hem|apply after_finished_success].
Qed.

(** The synthetic input of the specification: video 1920x1080 at 30000/1001
    and audio 48 kHz, 16 bit, 2 channels, both 10 s long, then end-of-stream. *)
Example full_session :
  let d := session (PyFloat 1) true
             [EvHaveType "video/quicktime";
              EvNewPad "video/x-raw-yuv"; EvNewPad "audio/x-raw-int";
              EvNotifyCaps 0 (Some video_caps) (Some 10000000000);
              EvNotifyCaps 1 (Some audio_caps_48k) (Some 10000000000);
              EvBus MESSAGE_EOS; EvIdle] in
  emitted d = [true] /\ finished d = true /\ length d = 10000000000
  /\ is_video d = true /\ is_audio d = true
  /\ videowidth d = VInt 1920 /\ videoheight d = VInt 1080
  /\ videorate d = VFraction 30000 1001
  /\ audiorate d = VInt 48000 /\ audiodepth d = VInt 16
  /\ audiochannels d = VInt 2 /\ audiofloat d = false
  /\ mimetype d = Some "video/quicktime".
Proof. vm_compute. repeat split; reflexivity. Qed.

(** C1 as stated fails: a video pad appears, no-more-pads is announced and
    the timeout fires before the video negotiates, so the session ends
    through the timeout with the criterion false.  The negotiation arrives
    before the idle turn: the handler has no test of the phase, completes
    again with [True], and ['discovered'] reports success, twice. *)
Lemma eos_or_timeout_outcome_counterexample :
  let d := session (PyFloat 1) true
             [EvNewPad "video/x-raw-yuv"; EvNoMorePads] in
  let tmo := deliver (EvTimeout (_timeoutid d)) d in
  let d' := run [EvNotifyCaps 0 (Some video_caps) (Some 10000000000);
                 EvIdle; EvIdle] tmo in
  terminal d = false /\ success_criterion d = false
  /\ terminal tmo = true /\ _success tmo = false
  /\ emitted d' = [true; true]
  /\ ~ Forall (eq (success_criterion d)) (emitted d').
Proof.
  cbv zeta. repeat split; try (vm_compute; reflexivity).
  vm_compute. intros H. inversion H as [|? ? H' _]. discriminate H'.
Qed.

(** C1, amended. When a running session ends through end-of-stream or
    through the timeout, the outcome handed to [_finished] is success
    exactly when at least one of audio and video was recognized and every
    recognized kind has a recorded capability; otherwise it is failure.
    That outcome is what ['discovered'] reports, once and from the first
    idle turn on, in every continuation in which no capabilities or
    unknown-type event arrives between the terminal transition and the
    stop. *)
Theorem eos_or_timeout_outcome (mi : number) (play : bool)
    (evs more : list event) :
  let d := session mi play evs in
  terminal d = false ->
  let eos := deliver (EvBus MESSAGE_EOS) d in
  let tmo := deliver (EvTimeout (_timeoutid d)) d in
  _success eos = success_criterion d
  /\ emitted (deliver EvIdle eos) = [success_criterion d]
  /\ _success tmo = success_criterion d
  /\ emitted (deliver EvIdle tmo) = [success_criterion d]
  /\ (calm more eos = true ->
      emitted (run more eos)
      = if existsb is_idle more then [success_criterion d] else [])
  /\ (calm more tmo = true ->
      emitted (run more tmo)
      = if existsb is_idle more then [success_criterion d] else []).
Proof.
  intros d Ht eos tmo. subst eos tmo.
  pose proof (inv_session mi play evs) as HI. fold d in HI.
  rewrite deliver_eos_running, deliver_timeout_running by assumption.
  rewrite deliver_idle_after_finished by assumption.
  destruct (pending_after_finished (success_criterion d) d HI Ht)
    as (HI' & Hi & He & Hs).
  rewrite Hs.
  assert (H : calm more (after_finished (success_criterion d) d) = true ->
              emitted (run more (after_finished (success_criterion d) d))
              = if existsb is_idle more then [success_criterion d] else []).
  { intros Hcalm. rewrite (run_pending more _ _ HI' Hi He Hcalm), Hs.
    reflexivity. }
  auto 10.
Qed.

(** Both endpoints appear and only audio negotiates before the timeout: the
    outcome is failure, also when a tag message and no-more-pads still
    arrive before the stop. *)
Lemma eos_or_timeout_outcome_witness :
  let evs := [EvNewPad "audio/x-raw-int"; EvNewPad "video/x-raw-yuv";
              EvNotifyCaps 0 (Some audio_caps) (Some 10000000000)] in
  let more := [EvBus (MESSAGE_TAG [("title", VStr "a")]); EvNoMorePads;
               EvIdle] in
  let d := session (PyFloat 1) true evs in
  terminal d = false
  /\ success_criterion d = false
  /\ calm more (deliver (EvTimeout (_timeoutid d)) d) = true
  /\ emitted (run more (deliver (EvTimeout (_timeoutid d)) d)) = [false].
Proof.
  cbv zeta. split; [vm_compute; reflexivity|].
  split; [vm_compute; reflexivity|].
  split; [vm_compute; reflexivity|].
  pose proof (eos_or_timeout_outcome (PyFloat 1) true
    [EvNewPad "audio/x-raw-int"; EvNewPad "video/x-raw-yuv";
     EvNotifyCaps 0 (Some audio_caps) (Some 10000000000)]
    [EvBus (MESSAGE_TAG [("title", VStr "a")]); EvNoMorePads; EvIdle]) as H.
  cbv zeta in H.
  destruct H as (_ & _ & _ & _ & _ & H); [vm_compute; reflexivity|].
  etransitivity; [apply H; vm_compute; reflexivity|].
  vm_compute. reflexivity.
Defined.

(** The handler of an end-of-stream message is the timeout's callback. *)
Lemma bus_eos_is_timeout_callback (d : Discoverer) :
  _bus_message_cb MESSAGE_EOS d = _timed_out_or_eos d.
Proof. reflexivity. Qed.

(** C5. The timeout and an end-of-stream message are evaluated alike.  On
    every object the handler of an end-of-stream message does what the
    timeout's callback does; and in every running session delivering either
    yields the same object, the one that a single call of [_finished] with
    the success criterion leaves, so both compute the same outcome and make
    the same terminal transition. *)
Theorem timeout_same_as_eos (mi : number) (play : bool) (evs : list event) :
  let d := session mi play evs in
  terminal d = false ->
  (forall d0 : Discoverer,
     _bus_message_cb MESSAGE_EOS d0 = _timed_out_or_eos d0)
  /\ deliver (EvTimeout (_timeoutid d)) d = deliver (EvBus MESSAGE_EOS) d
  /\ deliver (EvBus MESSAGE_EOS) d = after_finished (success_criterion d) d
  /\ _success (deliver (EvTimeout (_timeoutid d)) d) = success_criterion d
  /\ terminal (deliver (EvTimeout (_timeoutid d)) d) = true.
Proof.
  intros d Ht. pose proof (inv_session mi play evs) as HI. fold d in HI.
  split; [exact bus_eos_is_timeout_callback|].
  rewrite deliver_eos_running, deliver_timeout_running by assumption.
  split; [reflexivity|]. split; [reflexivity|].
  split; [apply after_finished_success|].
  eapply terminal_pending. apply idles_after_finished, inv_pre, HI.
Qed.

(** The timeout fires with no bus message received at all. *)
Lemma timeout_same_as_eos_witness :
  let d := session (PyFloat 1) true [] in
  terminal d = false
  /\ deliver (EvTimeout (_timeoutid d)) d = deliver (EvBus MESSAGE_EOS) d
  /\ _success (deliver (EvTimeout (_timeoutid d)) d) = false.
Proof.
  cbv zeta. split; [vm_compute; reflexivity|].
  pose proof (timeout_same_as_eos (PyFloat 1) true []) as H.
  cbv zeta in H. destruct H as (_ & H & _); [vm_compute; reflexivity|].
  split; [exact H|]. vm_compute. reflexivity.
Defined.

(** ** Discovery on a finished object *)

(** C6. [discover] on an object whose [finished] flag is set returns at
    once having emitted ['discovered'] with [False], exactly once, and done
    nothing else: no bus attribute or signal watch, no message handler, no
    timeout or idle source, no state change of the pipeline. *)
Theorem discover_when_finished (play : bool) (d : Discoverer) :
  finished d = true ->
  let d' := exec (discover play) d in
  discover play d = (Ok tt, set_emitted (emitted d ++ [false]) d)
  /\ emitted d' = emitted d ++ [false]
  /\ bus d' = bus d /\ bus_watch d' = bus_watch d
  /\ bus_handlers d' = bus_handlers d
  /\ timeouts d' = timeouts d /\ _timeoutid d' = _timeoutid d
  /\ idles d' = idles d /\ glib_next d' = glib_next d
  /\ pipeline_state d' = pipeline_state d /\ children d' = children d.
Proof.
  intros Hf. unfold exec, discover, bind, gets, emit_discovered, modify.
  rewrite Hf. cbn. repeat split; reflexivity.
Qed.

Lemma discover_when_finished_witness :
  let d := session (PyFloat 1) true [EvBus MESSAGE_ERROR; EvIdle] in
  finished d = true
  /\ emitted d = [false]
  /\ emitted (exec (discover true) d) = [false; false]
  /\ timeouts (exec (discover true) d) = []
  /\ bus_watch (exec (discover true) d) = 0%nat
  /\ pipeline_state (exec (discover true) d) = STATE_READY.
Proof.
  cbv zeta. split; [vm_compute; reflexivity|].
  split; [vm_compute; reflexivity|].
  pose proof (discover_when_finished true
    (session (PyFloat 1) true [EvBus MESSAGE_ERROR; EvIdle])) as H.
  cbv zeta in H.
  destruct H as (_ & He & _ & Hw & _ & Ht & _ & _ & _ & Hp & _);
    [vm_compute; reflexivity|].
  rewrite He, Ht, Hw, Hp. vm_compute. repeat split; reflexivity.
Defined.

(** ** What a capabilities notification records *)

Ltac run_finished :=
  match goal with
  | |- context [_finished ?b ?x] =>
      let E := fresh "Hbus" in
      destruct (bus x) eqn:E; cbn in E;
      [rewrite (finished_run b x E)|rewrite (finished_no_bus b x E)]
  end.

Ltac lookup_cases :=
  repeat match goal with
         | |- context [@lookup _ _ _ _ ?k ?st] =>
             destruct (@lookup _ _ _ _ k st); cbn
         end.

Lemma notify_audio_fields (caps : Caps) (duration : option Z)
    (d : Discoverer) :
  caps_nonzero caps = true ->
  contains "audio" (to_string caps) = true ->
  let d' := exec (_notify_caps_cb (Some caps) duration) d in
  audiocaps d' = CapsObj caps
  /\ audiolength d' = recorded_length duration
  /\ videocaps d' = videocaps d /\ videolength d' = videolength d
  /\ is_audio d' = is_audio d /\ is_video d' = is_video d.
Proof.
  intros Hnz Ha. unfold _notify_caps_cb. rewrite Hnz, Ha. cbn [negb].
  destruct caps as [str [|st sts]]; [discriminate|].
  mstep. lookup_cases; auto 10.
  all: destruct (contains "x-raw-float" str); cbn; lookup_cases; auto 10.
  all: destruct (_nomorepads d && (negb (is_video d) || truthy (videocaps d)));
    cbn; auto 10.
  all: run_finished; cbn; autorewrite with frame; cbn; auto 10.
Qed.

Lemma notify_video_fields (caps : Caps) (duration : option Z)
    (d : Discoverer) :
  caps_nonzero caps = true ->
  contains "audio" (to_string caps) = false ->
  contains "video" (to_string caps) = true ->
  let d' := exec (_notify_caps_cb (Some caps) duration) d in
  videocaps d' = CapsObj caps
  /\ videolength d' = recorded_length duration
  /\ audiocaps d' = audiocaps d /\ audiolength d' = audiolength d
  /\ is_audio d' = is_audio d /\ is_video d' = is_video d.
Proof.
  intros Hnz Ha Hv. unfold _notify_caps_cb. rewrite Hnz, Ha, Hv. cbn [negb].
  destruct caps as [str [|st sts]]; [discriminate|].
  mstep. lookup_cases; auto 10.
  destruct (_nomorepads d && (negb (is_audio d) || truthy (audiocaps d)));
    cbn; auto 10.
  run_finished; cbn; autorewrite with frame; cbn; auto 10.
Qed.

Lemma len_deliver (ev : event) (d : Discoverer) :
  Inv d -> LenInv d -> LenInv (deliver ev d).
Proof.
  intros HI [Ha Hv]. destruct (deliver_step ev d HI) as (_ & Ha' & Hv').
  split; intros E.
  - destruct Ha' as [[Hc Hl]|Ht];
      [rewrite Hl; apply Ha; congruence|rewrite E in Ht; discriminate].
  - destruct Hv' as [[Hc Hl]|Ht];
      [rewrite Hl; apply Hv; congruence|rewrite E in Ht; discriminate].
Qed.

Lemma len_session (mi : number) (play : bool) (evs : list event) :
  LenInv (session mi play evs).
Proof.
  unfold session.
  assert (H0 : LenInv (exec (discover play) (__init__ mi))).
  { destruct play; [split; reflexivity|].
    unfold discover. mstep. rewrite finished_run by reflexivity. cbn.
    split; autorewrite with frame; reflexivity. }
  pose proof (inv_discover mi play) as HI0.
  revert H0 HI0. generalize (exec (discover play) (__init__ mi)).
  induction evs as [|ev evs IH]; intros d0 H0 HI0; [exact H0|].
  cbn. apply IH; [apply len_deliver|apply inv_deliver]; assumption.
Qed.

(** ** The overall duration *)

(** C7 as stated fails: audio is recognized and negotiated, video never
    appears, the duration query fails, end-of-stream arrives and the outcome
    is success; the overall duration is 0 while the audio duration is -1. *)
Lemma overall_duration_counterexample :
  let d := session (PyFloat 1) true
             [EvNewPad "audio/x-raw-int";
              EvNotifyCaps 0 (Some audio_caps) None;
              EvBus MESSAGE_EOS; EvIdle] in
  is_audio d = true /\ is_video d = false
  /\ audiocaps d = CapsObj audio_caps /\ videocaps d = EmptyDict
  /\ emitted d = [true]
  /\ audiolength d = -1 /\ length d = 0 /\ length d <> audiolength d.
Proof. vm_compute. repeat split; try reflexivity. discriminate. Qed.

(** C7, amended. In every session the overall duration is the maximum of
    [videolength] and [audiolength], where a kind without recorded
    capability counts with its initial 0.  So when no video capability was
    recorded the overall duration is [max 0 audiolength]: the audio duration
    when that is not negative, and 0 when it is the unknown marker; and the
    same with audio and video exchanged. *)
Theorem overall_duration (mi : number) (play : bool) (evs : list event) :
  let d := session mi play evs in
  length d = Z.max (videolength d) (audiolength d)
  /\ (videocaps d = EmptyDict ->
      length d = Z.max 0 (audiolength d)
      /\ (0 <= audiolength d -> length d = audiolength d)
      /\ (audiolength d < 0 -> length d = 0))
  /\ (audiocaps d = EmptyDict ->
      length d = Z.max 0 (videolength d)
      /\ (0 <= videolength d -> length d = videolength d)
      /\ (videolength d < 0 -> length d = 0)).
Proof.
  intros d. destruct (len_session mi play evs) as [Ha Hv].
  fold d in Ha, Hv. unfold length.
  split; [reflexivity|].
  split; intros H; [rewrite (Hv H)|rewrite (Ha H)]; repeat split; lia.
Qed.

Lemma overall_duration_witness :
  let d := session (PyFloat 1) true
             [EvNewPad "audio/x-raw-int";
              EvNotifyCaps 0 (Some audio_caps) (Some 10000000000);
              EvBus MESSAGE_EOS; EvIdle] in
  videocaps d = EmptyDict /\ emitted d = [true]
  /\ length d = audiolength d /\ length d = 10000000000.
Proof.
  cbv zeta. split; [vm_compute; reflexivity|].
  split; [vm_compute; reflexivity|].
  pose proof (overall_duration (PyFloat 1) true
    [EvNewPad "audio/x-raw-int";
     EvNotifyCaps 0 (Some audio_caps) (Some 10000000000);
     EvBus MESSAGE_EOS; EvIdle]) as H.
  cbv zeta in H. destruct H as (_ & H & _).
  destruct H as (_ & H & _); [vm_compute; reflexivity|].
  split; [apply H; vm_compute; discriminate|]. vm_compute. reflexivity.
Defined.

(** C10. When the duration query of the only negotiated kind fails and the
    other kind still has its initial length 0, the overall duration is 0 and
    not the unknown marker -1 recorded for that kind. *)
Theorem unknown_duration_masked (caps : Caps) (d : Discoverer) :
  caps_nonzero caps = true ->
  let d' := exec (_notify_caps_cb (Some caps) None) d in
  (contains "audio" (to_string caps) = true -> videolength d = 0 ->
   audiolength d' = -1 /\ videolength d' = 0 /\ length d' = 0)
  /\ (contains "audio" (to_string caps) = false ->
      contains "video" (to_string caps) = true -> audiolength d = 0 ->
      videolength d' = -1 /\ audiolength d' = 0 /\ length d' = 0).
Proof.
  intros Hnz d'. split.
  - intros Ha H0.
    destruct (notify_audio_fields caps None d Hnz Ha)
      as (_ & Hl & _ & Hvl & _).
    fold d' in Hl, Hvl. unfold length. rewrite Hl, Hvl, H0. auto.
  - intros Ha Hv H0.
    destruct (notify_video_fields caps None d Hnz Ha Hv)
      as (_ & Hl & _ & Hal & _).
    fold d' in Hl, Hal. unfold length. rewrite Hl, Hal, H0. auto.
Qed.

Lemma unknown_duration_masked_witness :
  let d := session (PyFloat 1) true [EvNewPad "video/x-raw-yuv"] in
  let d' := exec (_notify_caps_cb (Some video_caps) None) d in
  caps_nonzero video_caps = true
  /\ is_video d = true /\ is_audio d = false /\ audiolength d = 0
  /\ videolength d' = -1 /\ audiolength d' = 0 /\ length d' = 0.
Proof.
  cbv zeta. split; [reflexivity|]. split; [vm_compute; reflexivity|].
  split; [vm_compute; reflexivity|]. split; [vm_compute; reflexivity|].
  pose proof (unknown_duration_masked video_caps
    (session (PyFloat 1) true [EvNewPad "video/x-raw-yuv"])) as H.
  cbv zeta in H. destruct H as (_ & H); [reflexivity|].
  apply H; vm_compute; reflexivity.
Defined.

(** ** Classification by substring, audio first *)

Lemma new_pad_audio (caps : string) (d : Discoverer) :
  contains "audio" caps = true ->
  let d' := exec (_new_decoded_pad_cb caps) d in
  is_audio d' = true /\ is_video d' = is_video d
  /\ sinknumber d' = sinknumber d + 1
  /\ (children d' = children d
      \/ exists q, children d'
           = children d ++ [({| sink_number := sinknumber d;
                                sink_kind := "audio" |}, q)]).
Proof.
  intros Ha. unfold _new_decoded_pad_cb. rewrite Ha. mstep. rewrite Ha.
  destruct (make_queue (_max_interleave d)) as [q|e]; cbn; eauto 10.
Qed.

(** C9. A descriptor that contains both ["audio"] and ["video"] is audio for
    both steps: [_new_decoded_pad_cb] sets [is_audio], leaves [is_video]
    alone and names the sink after audio; [_notify_caps_cb] records the caps
    and the length as audio and leaves the video record alone. *)
Theorem audio_takes_precedence (descriptor : string)
    (sts : list (gmap string value)) (duration : option Z)
    (d : Discoverer) :
  contains "audio" descriptor = true ->
  contains "video" descriptor = true ->
  let pad := exec (_new_decoded_pad_cb descriptor) d in
  let caps := {| to_string := descriptor; structures := sts |} in
  let rec := exec (_notify_caps_cb (Some caps) duration) d in
  (is_audio pad = true /\ is_video pad = is_video d
   /\ (children pad = children d
       \/ exists q, children pad
            = children d ++ [({| sink_number := sinknumber d;
                                 sink_kind := "audio" |}, q)]))
  /\ (caps_nonzero caps = true ->
      audiocaps rec = CapsObj caps
      /\ audiolength rec = recorded_length duration
      /\ videocaps rec = videocaps d /\ videolength rec = videolength d).
Proof.
  intros Ha Hv pad caps rec. split.
  - destruct (new_pad_audio descriptor d Ha) as (H1 & H2 & _ & H3). auto.
  - intros Hnz.
    destruct (notify_audio_fields caps duration d Hnz Ha)
      as (H1 & H2 & H3 & H4 & _). auto.
Qed.

Lemma audio_takes_precedence_witness :
  let d := exec (discover true) (__init__ (PyFloat 1)) in
  contains "audio" (to_string mixed_caps) = true
  /\ contains "video" (to_string mixed_caps) = true
  /\ is_audio (exec (_new_decoded_pad_cb (to_string mixed_caps)) d) = true
  /\ is_video (exec (_new_decoded_pad_cb (to_string mixed_caps)) d) = false
  /\ audiocaps (exec (_notify_caps_cb (Some mixed_caps) (Some 5)) d)
     = CapsObj mixed_caps
  /\ videocaps (exec (_notify_caps_cb (Some mixed_caps) (Some 5)) d)
     = EmptyDict.
Proof.
  cbv zeta. split; [reflexivity|]. split; [reflexivity|].
  pose proof (audio_takes_precedence (to_string mixed_caps)
    (structures mixed_caps) (Some 5)
    (exec (discover true) (__init__ (PyFloat 1)))) as H.
  cbv zeta in H.
  destruct H as ((H1 & H2 & _) & H3); [reflexivity|reflexivity|].
  destruct H3 as (H3 & _ & H4 & _); [reflexivity|].
  split; [exact H1|]. split; [etransitivity; [exact H2|reflexivity]|].
  split; [exact H3|]. etransitivity; [exact H4|reflexivity].
Defined.

(** ** Repeated negotiation of one kind *)

(** C3 as stated fails: a second capabilities notification for audio
    replaces the recorded caps, the recorded rate and the recorded length. *)

Lemma first_negotiation_final_counterexample :
  let d1 := session (PyFloat 1) true
              [EvNewPad "audio/x-raw-int"; EvNewPad "audio/x-raw-int";
               EvNotifyCaps 0 (Some audio_caps) (Some 10000000000)] in
  let d2 := deliver (EvNotifyCaps 1 (Some audio_caps_48k) (Some 20000000000))
              d1 in
  audiocaps d1 = CapsObj audio_caps /\ audiolength d1 = 10000000000
  /\ audiorate d1 = VInt 44100
  /\ audiocaps d2 = CapsObj audio_caps_48k /\ audiolength d2 = 20000000000
  /\ audiorate d2 = VInt 48000
  /\ audiolength d2 <> audiolength d1 /\ audiorate d2 <> audiorate d1.
Proof. vm_compute. repeat split; try reflexivity; discriminate. Qed.

Lemma notify_audio_values (str : string) (st : gmap string value)
    (sts : list (gmap string value)) (duration : option Z)
    (rate width channels : value) (d : Discoverer) :
  contains "audio" str = true ->
  st !! "rate" = Some rate -> st !! "width" = Some width ->
  st !! "channels" = Some channels ->
  let caps := {| to_string := str; structures := st :: sts |} in
  let d' := exec (_notify_caps_cb (Some caps) duration) d in
  audiorate d' = rate /\ audiowidth d' = width /\ audiochannels d' = channels
  /\ (contains "x-raw-float" str = true ->
      audiofloat d' = true /\ audiodepth d' = audiodepth d)
  /\ (contains "x-raw-float" str = false ->
      forall depth, st !! "depth" = Some depth ->
      audiodepth d' = depth /\ audiofloat d' = audiofloat d).
Proof.
  intros Ha Hr Hw Hc. unfold _notify_caps_cb. cbn. rewrite Ha.
  mstep. rewrite Hr. cbn. rewrite Hw. cbn. rewrite Hc. cbn.
  destruct (contains "x-raw-float" str); cbn;
    [|destruct (st !! "depth") as [dp|] eqn:Hd; cbn];
    try (destruct (_nomorepads d
                   && (negb (is_video d) || truthy (videocaps d)));
         cbn; [run_finished; cbn; autorewrite with frame; cbn|]).
  all: repeat split; try reflexivity; congruence.
Qed.

Lemma notify_video_values (str : string) (st : gmap string value)
    (sts : list (gmap string value)) (duration : option Z)
    (width height framerate : value) (d : Discoverer) :
  contains "audio" str = false -> contains "video" str = true ->
  st !! "width" = Some width -> st !! "height" = Some height ->
  st !! "framerate" = Some framerate ->
  let caps := {| to_string := str; structures := st :: sts |} in
  let d' := exec (_notify_caps_cb (Some caps) duration) d in
  videowidth d' = width /\ videoheight d' = height
  /\ videorate d' = framerate.
Proof.
  intros Ha Hv Hw Hh Hf. unfold _notify_caps_cb. cbn. rewrite Ha, Hv.
  mstep. rewrite Hw. cbn. rewrite Hh. cbn. rewrite Hf. cbn.
  destruct (_nomorepads d && (negb (is_audio d) || truthy (audiocaps d)));
    cbn; [run_finished; cbn; autorewrite with frame; cbn|]; auto.
Qed.

(** C3, amended. The last negotiation of a kind is the one recorded: every
    capabilities notification with non-empty audio caps replaces
    [audiocaps] and [audiolength], whatever was recorded before, and with
    them the rate, width and channels that the caps carry (the depth for
    caps that are not float; the float flag is only ever set); the same for
    video caps with [videocaps], [videolength], width, height and frame
    rate. *)
Theorem last_negotiation_wins (str : string) (st : gmap string value)
    (sts : list (gmap string value)) (duration : option Z)
    (d : Discoverer) :
  let caps := {| to_string := str; structures := st :: sts |} in
  let d' := exec (_notify_caps_cb (Some caps) duration) d in
  (contains "audio" str = true ->
   audiocaps d' = CapsObj caps
   /\ audiolength d' = recorded_length duration
   /\ forall rate width channels,
        st !! "rate" = Some rate -> st !! "width" = Some width ->
        st !! "channels" = Some channels ->
        audiorate d' = rate /\ audiowidth d' = width
        /\ audiochannels d' = channels
        /\ (contains "x-raw-float" str = true ->
            audiofloat d' = true /\ audiodepth d' = audiodepth d)
        /\ (contains "x-raw-float" str = false ->
            forall depth, st !! "depth" = Some depth ->
            audiodepth d' = depth /\ audiofloat d' = audiofloat d))
  /\ (contains "audio" str = false -> contains "video" str = true ->
      videocaps d' = CapsObj caps
      /\ videolength d' = recorded_length duration
      /\ forall width height framerate,
           st !! "width" = Some width -> st !! "height" = Some height ->
           st !! "framerate" = Some framerate ->
           videowidth d' = width /\ videoheight d' = height
           /\ videorate d' = framerate).
Proof.
  intros caps d'. split.
  - intros Ha.
    destruct (notify_audio_fields caps duration d eq_refl Ha)
      as (H1 & H2 & _).
    split; [exact H1|]. split; [exact H2|].
    intros rate width channels Hr Hw Hc.
    exact (notify_audio_values str st sts duration rate width channels d
             Ha Hr Hw Hc).
  - intros Ha Hv.
    destruct (notify_video_fields caps duration d eq_refl Ha Hv)
      as (H1 & H2 & _).
    split; [exact H1|]. split; [exact H2|].
    intros width height framerate Hw Hh Hf.
    exact (notify_video_values str st sts duration width height framerate d
             Ha Hv Hw Hh Hf).
Qed.

Lemma last_negotiation_wins_witness :
  let d1 := session (PyFloat 1) true
              [EvNewPad "audio/x-raw-int"; EvNewPad "audio/x-raw-int";
               EvNotifyCaps 0 (Some audio_caps) (Some 10000000000)] in
  let d2 := exec (_notify_caps_cb (Some audio_caps_48k) (Some 20000000000))
              d1 in
  contains "audio" (to_string audio_caps_48k) = true
  /\ audiolength d1 = 10000000000
  /\ audiocaps d2 = CapsObj audio_caps_48k
  /\ audiolength d2 = 20000000000.
Proof.
  cbv zeta. split; [reflexivity|]. split; [vm_compute; reflexivity|].
  pose proof (last_negotiation_wins (to_string audio_caps_48k)
    {[ "rate" := VInt 48000; "width" := VInt 16; "depth" := VInt 16;
       "channels" := VInt 2 ]} [] (Some 20000000000)
    (session (PyFloat 1) true
       [EvNewPad "audio/x-raw-int"; EvNewPad "audio/x-raw-int";
        EvNotifyCaps 0 (Some audio_caps) (Some 10000000000)])) as H.
  cbv zeta in H. destruct H as (H & _).
  destruct H as (H1 & H2 & _); [reflexivity|].
  split; [exact H1|exact H2].
Defined.

(** ** Streams that are neither audio nor video *)

(** C4 as stated fails on the new-endpoint path: a new pad whose descriptor
    is neither audio nor video, arriving while nothing is recognized, is
    not appended to [otherstreams] and does not end the session. *)
Lemma other_endpoint_counterexample :
  let d := session (PyFloat 1) true [] in
  let d' := deliver (EvNewPad "text/x-raw") d in
  contains "audio" "text/x-raw" = false
  /\ contains "video" "text/x-raw" = false
  /\ playing d = true /\ is_audio d = false /\ is_video d = false
  /\ otherstreams d' = []
  /\ otherstreams d' <> otherstreams d ++ ["text/x-raw"]
  /\ terminal d' = false /\ emitted d' = [] /\ idles d' = [].
Proof.
  vm_compute. repeat split; try reflexivity. discriminate.
Qed.

Lemma new_pad_other (caps : string) (d : Discoverer) :
  contains "audio" caps = false -> contains "video" caps = false ->
  exec (_new_decoded_pad_cb caps) d = d.
Proof.
  intros Ha Hv. unfold exec, _new_decoded_pad_cb. rewrite Ha, Hv. reflexivity.
Qed.

(** After an unknown-type handler ended a session with failure, an audio
    pad still appears and negotiates before the idle turn: the outcome is
    overturned and ['discovered'] reports success, twice. *)
Lemma unknown_type_overturned :
  let d := session (PyFloat 1) true [EvNoMorePads] in
  let d' := deliver (EvUnknownType "text/x-raw") d in
  let d'' := run [EvNewPad "audio/x-raw-int";
                  EvNotifyCaps 0 (Some audio_caps) (Some 10000000000);
                  EvIdle; EvIdle] d' in
  terminal d = false /\ is_audio d = false /\ is_video d = false
  /\ finished d' = true /\ _success d' = false
  /\ emitted d'' = [true; true].
Proof. vm_compute. repeat split; reflexivity. Qed.

(** C4, amended. Every call of [_unknown_type_cb], whatever the
    descriptor, appends the descriptor to [otherstreams].  When neither an
    audio nor a video endpoint has been recognized so far, the handler sets
    [finished] and completes with failure; in a running session
    ['discovered'] then reports failure, once and from the first idle turn
    on, in every continuation in which no capabilities or further
    unknown-type event arrives before the stop.  When a kind has been
    recognized the session goes on with nothing else changed.  A new pad
    whose descriptor is neither audio nor video changes nothing at all. *)
Theorem unknown_type_recorded (mi : number) (play : bool)
    (evs : list event) (caps : string) :
  let d := session mi play evs in
  let d' := exec (_unknown_type_cb caps) d in
  otherstreams d' = otherstreams d ++ [caps]
  /\ (is_audio d = false -> is_video d = false ->
      finished d' = true /\ _success d' = false /\ terminal d' = true
      /\ idles d' = idles d ++ [glib_next d] /\ bus_watch d' = 0%nat
      /\ timeouts d' = []
      /\ (terminal d = false ->
          d' = deliver (EvUnknownType caps) d
          /\ forall more, calm more d' = true ->
             emitted (run more d')
             = if existsb is_idle more then [false] else []))
  /\ (is_audio d || is_video d = true ->
      d' = set_otherstreams (otherstreams d ++ [caps]) d
      /\ terminal d' = terminal d /\ _success d' = _success d)
  /\ (forall other, contains "audio" other = false ->
      contains "video" other = false ->
      exec (_new_decoded_pad_cb other) d = d).
Proof.
  intros d d'. pose proof (inv_session mi play evs) as HI. fold d in HI.
  subst d'. rewrite unknown_type_run by apply HI. cbv zeta.
  split; [|split; [|split]].
  - destruct (negb (is_video d) && negb (is_audio d));
      autorewrite with frame; reflexivity.
  - intros Ha Hv. rewrite Ha, Hv. cbn [negb andb].
    set (d1 := set_finished true
                 (set_otherstreams (otherstreams d ++ [caps]) d)).
    assert (HP : Pre d1).
    { eapply pre_ext; [..|exact (inv_pre _ HI)]; try reflexivity;
        apply HI. }
    pose proof (inv_after_finished false d1 HP) as HI'.
    assert (Hid : idles (after_finished false d1)
                  = idles d ++ [glib_next d])
      by (rewrite idles_after_finished by exact HP; reflexivity).
    pose proof (terminal_pending _ _ _ Hid) as Ht.
    destruct (inv_terminal _ HI' Ht) as (Hw & Hto & _).
    split; [autorewrite with frame; reflexivity|].
    split; [apply after_finished_success|].
    split; [exact Ht|]. split; [exact Hid|]. split; [exact Hw|].
    split; [exact Hto|].
    intros Ht0.
    destruct (inv_running _ HI Ht0) as (_ & _ & _ & He & Hp & Hi0 & _).
    split.
    + cbn [deliver]. rewrite Hp, unknown_type_run by apply HI. cbv zeta.
      rewrite Ha, Hv. reflexivity.
    + intros more Hcalm. rewrite Hi0 in Hid.
      assert (He' : emitted (after_finished false d1) = [])
        by (autorewrite with frame; exact He).
      rewrite (run_pending more _ _ HI' Hid He' Hcalm),
        after_finished_success.
      reflexivity.
  - intros Hrec.
    assert (E : negb (is_video d) && negb (is_audio d) = false)
      by (destruct (is_audio d), (is_video d); auto; discriminate).
    rewrite E. auto.
  - intros other Ha Hv. apply new_pad_other; assumption.
Qed.

(** An unknown type is found while nothing is recognized: the session
    ends with failure, also when no-more-pads still arrives before the
    stop. *)
Lemma unknown_type_recorded_witness :
  let d := session (PyFloat 1) true [] in
  let d' := exec (_unknown_type_cb "text/x-raw") d in
  is_audio d = false /\ is_video d = false /\ terminal d = false
  /\ otherstreams d' = ["text/x-raw"]
  /\ finished d' = true /\ _success d' = false
  /\ calm [EvNoMorePads; EvIdle] d' = true
  /\ emitted (run [EvNoMorePads; EvIdle] d') = [false].
Proof.
  cbv zeta. split; [reflexivity|]. split; [reflexivity|].
  split; [reflexivity|].
  pose proof (unknown_type_recorded (PyFloat 1) true [] "text/x-raw") as H.
  cbv zeta in H. destruct H as (H1 & H2 & _).
  destruct H2 as (H2 & H3 & _ & _ & _ & _ & H4);
    [reflexivity|reflexivity|].
  destruct H4 as (_ & H4); [reflexivity|].
  split; [exact H1|]. split; [exact H2|]. split; [exact H3|].
  split; [vm_compute; reflexivity|].
  etransitivity; [apply H4; vm_compute; reflexivity|reflexivity].
Defined.

(** ** One notification, and what is ignored after completion *)

(** C2 as stated fails: a file with two audio streams.  The first
    negotiation ends the session (Finishing, a stop is scheduled); the
    second one, delivered before the idle turn, is not ignored: it rewrites
    the audio record, calls [_finished] again and schedules a second stop,
    and ['discovered'] is emitted twice. *)
Lemma notified_once_counterexample :
  let d1 := session (PyFloat 1) true
              [EvNewPad "audio/x-raw-int"; EvNewPad "audio/x-raw-int";
               EvNoMorePads;
               EvNotifyCaps 0 (Some audio_caps) (Some 10000000000)] in
  let d2 := deliver (EvNotifyCaps 1 (Some audio_caps_48k) (Some 20000000000))
              d1 in
  let d3 := run [EvIdle; EvIdle] d2 in
  terminal d1 = true /\ idles d1 = [2] /\ audiolength d1 = 10000000000
  /\ audiolength d2 = 20000000000 /\ idles d2 = [2; 3]
  /\ d2 <> d1
  /\ emitted d3 = [true; true]
  /\ ~ (List.length (emitted d3) <= 1)%nat.
Proof.
  cbv zeta. repeat split; try (vm_compute; reflexivity).
  - intros E. apply (f_equal audiolength) in E. vm_compute in E.
    discriminate E.
  - vm_compute. intros H. inversion H as [|? H']. inversion H'.
Qed.

Lemma emitted_le_notifications (d : Discoverer) :
  (List.length (emitted d) <= notifications d)%nat.
Proof. unfold notifications. lia. Qed.

(** C2, amended.  Once the session is terminal (Finishing or Stopped) the
    bus watch is gone and the timeout removed, so every further bus message
    (end-of-stream, error, tag) and every timeout is ignored: the object
    stays as it is.  Once the stop has run and the pipeline has left
    [STATE_PLAYING], every event but a pending idle stop is ignored.
    ['discovered'] is emitted at most once in every session in which no
    capabilities or unknown-type event arrives between a terminal transition
    and the stop. *)
Theorem notified_once_when_calm (mi : number) (play : bool)
    (evs : list event) :
  let d0 := exec (discover play) (__init__ mi) in
  let d := run evs d0 in
  (calm evs d0 = true -> (List.length (emitted d) <= 1)%nat)
  /\ (terminal d = true ->
      (forall msg, deliver (EvBus msg) d = d)
      /\ (forall id, deliver (EvTimeout id) d = d))
  /\ (playing d = false -> forall ev, ev <> EvIdle -> deliver ev d = d).
Proof.
  intros d0 d. pose proof (inv_discover mi play) as HI0. fold d0 in HI0.
  pose proof (inv_run evs d0 HI0) as HI. fold d in HI.
  split; [|split].
  - intros Hcalm. etransitivity; [apply emitted_le_notifications|].
    apply notifications_calm; [exact HI0| |exact Hcalm].
    subst d0. destruct play; [unfold notifications; cbn; auto|].
    unfold discover. mstep. rewrite finished_run by reflexivity.
    unfold notifications. cbn. auto.
  - intros Ht. split; intros x;
      [apply deliver_bus_terminal|apply deliver_timeout_terminal];
      assumption.
  - intros Hp ev Hev. pose proof (not_playing_terminal d HI Hp) as Ht.
    destruct ev; cbn [deliver]; rewrite ?Hp; try reflexivity.
    + apply deliver_bus_terminal; assumption.
    + apply deliver_timeout_terminal; assumption.
    + congruence.
Qed.

(** Audio and video both negotiate after the endpoint set is closed, then a
    late end-of-stream, an error and the timeout arrive. *)
Lemma notified_once_when_calm_witness :
  let evs := [EvNewPad "video/x-raw-yuv"; EvNewPad "audio/x-raw-int";
              EvNoMorePads;
              EvNotifyCaps 1 (Some audio_caps) (Some 10000000000);
              EvNotifyCaps 0 (Some video_caps) (Some 10000000000);
              EvBus MESSAGE_EOS; EvBus MESSAGE_ERROR; EvTimeout 1;
              EvIdle;
              EvNotifyCaps 0 (Some video_caps) (Some 10000000000)] in
  let d0 := exec (discover true) (__init__ (PyFloat 1)) in
  let d := run evs d0 in
  calm evs d0 = true /\ terminal d = true /\ playing d = false
  /\ emitted d = [true]
  /\ (List.length (emitted d) <= 1)%nat
  /\ deliver (EvBus MESSAGE_EOS) d = d
  /\ deliver (EvNotifyCaps 0 (Some audio_caps) (Some 5)) d = d.
Proof.
  cbv zeta. split; [vm_compute; reflexivity|].
  split; [vm_compute; reflexivity|]. split; [vm_compute; reflexivity|].
  split; [vm_compute; reflexivity|].
  pose proof (notified_once_when_calm (PyFloat 1) true
    [EvNewPad "video/x-raw-yuv"; EvNewPad "audio/x-raw-int"; EvNoMorePads;
     EvNotifyCaps 1 (Some audio_caps) (Some 10000000000);
     EvNotifyCaps 0 (Some video_caps) (Some 10000000000);
     EvBus MESSAGE_EOS; EvBus MESSAGE_ERROR; EvTimeout 1; EvIdle;
     EvNotifyCaps 0 (Some video_caps) (Some 10000000000)]) as H.
  cbv zeta in H. destruct H as (H0 & H1 & H2).
  split; [apply H0; vm_compute; reflexivity|].
  destruct H1 as [H1 _]; [vm_compute; reflexivity|].
  split; [exact (H1 MESSAGE_EOS)|].
  refine (H2 _ (EvNotifyCaps 0 (Some audio_caps) (Some 5)) _);
    [vm_compute; reflexivity|discriminate].
Defined.

(** ** The buffering stage of a recognized endpoint *)

(** C8 as stated fails for a tolerance that is not a whole number of
    nanoseconds: with [max_interleave = 0x1.00000004p+0] (1 + 2^-30 seconds)
    the minimum buffered duration is 1000000000 ns, below the tolerance, and
    the maximum is 2000000001 ns, which is not twice the tolerance. *)
Lemma queue_configuration_counterexample :
  let mi := PyFloat 0x1.00000004p+0 in
  let d := session mi true [EvNewPad "audio/x-raw-int"] in
  children d
  = [({| sink_number := 0; sink_kind := "audio" |},
      {| min_threshold_time := 1000000000;
         max_size_time := 2000000001;
         max_size_bytes := 0;
         max_size_buffers := 100;
         overrun_connected := true |})]
  /\ (inject_Z 1000000000 < tolerance_ns mi)%Q
  /\ ~ (inject_Z 2000000001 == 2 * tolerance_ns mi)%Q.
Proof.
  cbv zeta. split; [vm_compute; reflexivity|]. split.
  - vm_compute. reflexivity.
  - vm_compute. discriminate.
Qed.

Lemma result_bind_ok {A B} (r : result A) (k : A -> result B) (b : B) :
  result_bind r k = Ok b -> exists a, r = Ok a /\ k a = Ok b.
Proof. destruct r as [a|e]; cbn; [eauto|discriminate]. Qed.

Lemma set_unsigned_property_ok (bits v w : Z) :
  set_unsigned_property bits v = Ok w -> w = v /\ 0 <= v < 2 ^ bits.
Proof.
  unfold set_unsigned_property.
  destruct (Z.leb 0 v && Z.ltb v (2 ^ bits)) eqn:E; [|discriminate].
  intros [= <-]. apply andb_true_iff in E as [H1 H2]. lia.
Qed.

(** What [make_queue] computes, field by field. *)
Lemma make_queue_ok (mi : number) (q : Queue) :
  make_queue mi = Ok q ->
  result_bind (num_mul mi SECOND) py_int = Ok (min_threshold_time q)
  /\ result_bind
       (result_bind (num_mul (PyInt 2) mi) (fun x => num_mul x SECOND))
       py_int = Ok (max_size_time q)
  /\ max_size_bytes q = 0
  /\ result_bind (num_mul (PyInt 100) mi) py_int = Ok (max_size_buffers q)
  /\ overrun_connected q = true
  /\ 0 <= min_threshold_time q < 2 ^ 64 /\ 0 <= max_size_time q < 2 ^ 64
  /\ 0 <= max_size_buffers q < 2 ^ 32.
Proof.
  unfold make_queue. intros H.
  apply result_bind_ok in H as (a1 & Ha1 & H).
  apply result_bind_ok in H as (a2 & Ha2 & H).
  apply result_bind_ok in H as (t1 & H1 & H).
  apply result_bind_ok in H as (b1 & Hb1 & H).
  apply result_bind_ok in H as (b2 & Hb2 & H).
  apply result_bind_ok in H as (b3 & Hb3 & H).
  apply result_bind_ok in H as (t2 & H2 & H).
  apply result_bind_ok in H as (t3 & H3 & H).
  apply result_bind_ok in H as (c1 & Hc1 & H).
  apply result_bind_ok in H as (c2 & Hc2 & H).
  apply result_bind_ok in H as (t4 & H4 & H).
  injection H as <-.
  cbn [min_threshold_time max_size_time max_size_bytes max_size_buffers
       overrun_connected].
  apply set_unsigned_property_ok in H1 as [-> ?].
  apply set_unsigned_property_ok in H2 as [-> ?].
  apply set_unsigned_property_ok in H3 as [-> ?].
  apply set_unsigned_property_ok in H4 as [-> ?].
  rewrite Ha1, Hb1, Hc1. cbn [result_bind]. rewrite Hb2. cbn [result_bind].
  repeat split; auto; lia.
Qed.

Lemma overrun_once (q : Queue) :
  overrun_connected q = true ->
  min_threshold_time (overrun q) = 0
  /\ overrun_connected (overrun q) = false
  /\ max_size_time (overrun q) = max_size_time q
  /\ max_size_bytes (overrun q) = max_size_bytes q
  /\ max_size_buffers (overrun q) = max_size_buffers q
  /\ overrun (overrun q) = overrun q.
Proof. unfold overrun. intros ->. cbn. auto 10. Qed.

Lemma overrun_overrun (q : Queue) : overrun (overrun q) = overrun q.
Proof.
  unfold overrun. destruct (overrun_connected q) eqn:E; cbn; rewrite ?E;
    reflexivity.
Qed.

Lemma replace_middle {A} (pre post : list A) (x y : A) :
  firstn (List.length pre) (pre ++ x :: post)
    ++ y :: skipn (S (List.length pre)) (pre ++ x :: post)
  = pre ++ y :: post.
Proof.
  rewrite firstn_app, Nat.sub_diag, firstn_all. cbn. rewrite app_nil_r.
  rewrite skipn_app, skipn_all2 by lia.
  replace (S (List.length pre) - List.length pre)%nat with 1%nat by lia.
  reflexivity.
Qed.

(** A second overrun of the same queue changes nothing. *)
Lemma overrun_child_idem (i : nat) (d : Discoverer) :
  overrun_child i (overrun_child i d) = overrun_child i d.
Proof.
  unfold overrun_child at 2 3.
  destruct (nth_error (children d) i) as [[sink q]|] eqn:E.
  - apply nth_error_split in E as (pre & post & Hl & Hlen). subst i.
    rewrite Hl, replace_middle. unfold overrun_child. cbn [children].
    cbn. rewrite nth_error_app2 by lia. rewrite Nat.sub_diag. cbn.
    rewrite replace_middle, overrun_overrun. reflexivity.
  - unfold overrun_child. rewrite E. reflexivity.
Qed.

Lemma overrun_last_child (sink : Fakesink) (q : Queue) (d : Discoverer) :
  forall others,
  children d = others ++ [(sink, q)] ->
  children (overrun_child (List.length others) d)
  = others ++ [(sink, overrun q)].
Proof.
  intros others Hch. unfold overrun_child. rewrite Hch.
  rewrite nth_error_app2 by lia. rewrite Nat.sub_diag. cbn.
  rewrite firstn_app, Nat.sub_diag, firstn_all. cbn.
  rewrite skipn_app, skipn_all2 by (cbn; lia).
  replace (S (List.length others) - List.length others)%nat with 1%nat by lia.
  cbn. rewrite app_nil_r. reflexivity.
Qed.

(** [int] of a float truncates: the integer is less than one away from the
    float's value. *)
Lemma shiftl_truncates (m : positive) (e : Z) :
  let a := Z.shiftl (Z.pos m) e in
  if Z.leb 0 e then a = Z.pos m * 2 ^ e
  else 0 <= Z.pos m - a * 2 ^ (- e) < 2 ^ (- e).
Proof.
  cbv zeta. destruct (Z.leb 0 e) eqn:E.
  - apply Z.leb_le in E. apply Z.shiftl_mul_pow2. exact E.
  - apply Z.leb_gt in E.
    assert (Hs : Z.shiftl (Z.pos m) e = Z.pos m / 2 ^ (- e)).
    { rewrite <- Z.shiftr_opp_r. apply Z.shiftr_div_pow2. lia. }
    rewrite Hs.
    assert (Hk : 0 < 2 ^ (- e)) by (apply Z.pow_pos_nonneg; lia).
    pose proof (Z.div_mod (Z.pos m) (2 ^ (- e)) ltac:(lia)) as Hdm.
    pose proof (Z.mod_pos_bound (Z.pos m) (2 ^ (- e)) Hk) as Hb.
    revert Hdm Hb. generalize (Z.pos m / 2 ^ (- e)) (Z.pos m mod 2 ^ (- e)).
    generalize (2 ^ (- e)). intros k q r Hdm Hb. rewrite Hdm.
    replace (k * q + r - q * k) with r by ring. exact Hb.
Qed.

Lemma int_of_float_truncates (f : float) (z : Z) :
  int_of_float f = Ok z ->
  (Qabs (inject_Z z - Q_of_float f) < 1)%Q.
Proof.
  unfold int_of_float, Q_of_float.
  destruct (Prim2SF f) as [s|s| |s m e]; try discriminate.
  - intros [= <-]. reflexivity.
  - intros [= <-]. pose proof (shiftl_truncates m e) as H. cbv zeta in H.
    set (a := Z.shiftl (Z.pos m) e) in *.
    destruct (Z.leb 0 e) eqn:E.
    + destruct s; rewrite H.
      * assert (Hq : (inject_Z (- (Z.pos m * 2 ^ e))
                      - inject_Z (Z.neg m * 2 ^ e) == 0)%Q).
        { rewrite <- Pos2Z.opp_pos. rewrite Z.mul_opp_l. ring. }
        rewrite Hq. reflexivity.
      * assert (Hq : (inject_Z (Z.pos m * 2 ^ e)
                      - inject_Z (Z.pos m * 2 ^ e) == 0)%Q) by ring.
        rewrite Hq. reflexivity.
    + apply Z.leb_gt in E.
      assert (Hk : 0 < 2 ^ (- e)) by (apply Z.pow_pos_nonneg; lia).
      apply Qabs_Qlt_condition.
      unfold Qlt, Qminus, Qplus, Qopp, inject_Z. cbn.
      rewrite !Z2Pos.id by lia.
      destruct s; cbn; rewrite ?Z2Pos.id by lia; split;
        try rewrite <- Pos2Z.opp_pos; nia.
Qed.

(** The integer constants of the source convert to floats exactly. *)
Lemma float_of_int_constants :
  float_of_int 1000000000 = Ok 1000000000%float
  /\ float_of_int 2 = Ok 2%float /\ float_of_int 100 = Ok 100%float.
Proof. vm_compute. auto. Qed.

(** C8, amended.  For a recognized endpoint whose queue is accepted, the
    queue added to the pipeline has: minimum buffered duration
    [int(max_interleave * SECOND)] and maximum buffered duration
    [int(2 * max_interleave * SECOND)] nanoseconds, that is the tolerance
    and twice the tolerance brought to whole nanoseconds by [int] (exactly
    the tolerance, and exactly twice it, when [max_interleave] is an
    integer, and less than one nanosecond away from the float products
    when it is a float); byte cap 0; buffer-count cap
    [int(100 * max_interleave)]; and a connected overrun handler.  The
    first overrun of the queue sets the minimum buffered duration to 0,
    leaves the three caps alone and disconnects the handler; a later
    overrun changes nothing. *)
Theorem queue_configuration (caps : string) (d : Discoverer) (q : Queue) :
  contains "audio" caps || contains "video" caps = true ->
  make_queue (_max_interleave d) = Ok q ->
  let mi := _max_interleave d in
  let d' := exec (_new_decoded_pad_cb caps) d in
  let sink := {| sink_number := sinknumber d;
                 sink_kind := if contains "audio" caps then "audio"
                              else "video" |} in
  let i := List.length (children d) in
  children d' = children d ++ [(sink, q)]
  /\ result_bind (num_mul mi SECOND) py_int = Ok (min_threshold_time q)
  /\ result_bind
       (result_bind (num_mul (PyInt 2) mi) (fun x => num_mul x SECOND))
       py_int = Ok (max_size_time q)
  /\ max_size_bytes q = 0
  /\ result_bind (num_mul (PyInt 100) mi) py_int = Ok (max_size_buffers q)
  /\ overrun_connected q = true
  /\ (forall z, mi = PyInt z ->
      min_threshold_time q = z * 1000000000
      /\ max_size_time q = 2 * (z * 1000000000)
      /\ max_size_buffers q = 100 * z
      /\ (inject_Z (min_threshold_time q) == tolerance_ns mi)%Q
      /\ (inject_Z (max_size_time q) == 2 * tolerance_ns mi)%Q)
  /\ (forall f, mi = PyFloat f ->
      (Qabs (inject_Z (min_threshold_time q)
             - Q_of_float (f * 1000000000)%float) < 1)%Q
      /\ (Qabs (inject_Z (max_size_time q)
                - Q_of_float (2 * f * 1000000000)%float) < 1)%Q
      /\ (Qabs (inject_Z (max_size_buffers q)
                - Q_of_float (100 * f)%float) < 1)%Q)
  /\ children (overrun_child i d') = children d ++ [(sink, overrun q)]
  /\ min_threshold_time (overrun q) = 0
  /\ overrun_connected (overrun q) = false
  /\ max_size_time (overrun q) = max_size_time q
  /\ max_size_bytes (overrun q) = max_size_bytes q
  /\ max_size_buffers (overrun q) = max_size_buffers q
  /\ overrun_child i (overrun_child i d') = overrun_child i d'.
Proof.
  intros Hrec Hq mi d' sink i.
  destruct (make_queue_ok _ _ Hq) as (H1 & H2 & H3 & H4 & H5 & _).
  fold mi in H1, H2, H4.
  assert (Hch : children d' = children d ++ [(sink, q)]).
  { subst d' sink. unfold _new_decoded_pad_cb.
    destruct (contains "audio" caps) eqn:Ha;
      [|destruct (contains "video" caps) eqn:Hv; [|discriminate]];
      mstep; rewrite Hq; cbn; rewrite ?Ha; reflexivity. }
  destruct (overrun_once q H5) as (O1 & O2 & O3 & O4 & O5 & O6).
  pose proof (overrun_last_child sink q d' (children d) Hch) as Hov.
  fold i in Hov.
  destruct float_of_int_constants as (F1 & F2 & F3).
  repeat (split; [assumption|]).
  split; [|split; [|repeat (split; [assumption|])]].
  - intros z Hz. rewrite Hz in H1, H2, H4. cbn in H1, H2, H4.
    injection H1 as H1. injection H2 as H2. injection H4 as H4.
    unfold tolerance_ns. rewrite Hz. cbn [Q_of_number].
    rewrite <- H1, <- H2, <- H4.
    split; [lia|]. split; [lia|]. split; [lia|].
    split; [rewrite inject_Z_mult; reflexivity|].
    rewrite !inject_Z_mult. change (inject_Z 2) with 2%Q. ring.
  - intros f Hf. rewrite Hf in H1, H2, H4.
    unfold num_mul, SECOND in H1, H2, H4. cbn [result_bind] in H1, H2, H4.
    rewrite ?F1, ?F2, ?F3 in H1, H2, H4.
    cbn [result_bind py_int] in H1, H2, H4.
    rewrite ?F1 in H2. cbn [result_bind py_int] in H2.
    split; [|split]; apply int_of_float_truncates; assumption.
  - apply overrun_child_idem.
Qed.

Lemma queue_configuration_witness :
  let d := exec (discover true) (__init__ (PyInt 1)) in
  let d1 := exec (_new_decoded_pad_cb "video/x-raw-yuv") d in
  contains "audio" "video/x-raw-yuv" || contains "video" "video/x-raw-yuv"
  = true
  /\ children (overrun_child 0 d1)
     = [({| sink_number := 0; sink_kind := "video" |},
         {| min_threshold_time := 0;
            max_size_time := 2000000000;
            max_size_bytes := 0;
            max_size_buffers := 100;
            overrun_connected := false |})]
  /\ overrun_child 0 (overrun_child 0 d1) = overrun_child 0 d1.
Proof.
  cbv zeta. split; [reflexivity|].
  pose proof (queue_configuration "video/x-raw-yuv"
    (exec (discover true) (__init__ (PyInt 1)))
    {| min_threshold_time := 1000000000;
       max_size_time := 2000000000;
       max_size_bytes := 0;
       max_size_buffers := 100;
       overrun_connected := true |}) as H.
  cbv zeta in H.
  destruct H as (_ & _ & _ & _ & _ & _ & _ & _ & H1 & _ & _ & _ & _ & _ & H2);
    [reflexivity|reflexivity|].
  split; [exact H1|exact H2].
Defined.

(** * Further properties *)

(** ** Tags *)

Lemma fold_insert_lookup (key : string) (taglist : list (string * value))
    (m : gmap string value) :
  fold_left (fun t kv => <[kv.1 := kv.2]> t) taglist m !! key
  = match last_value key taglist with
    | Some v => Some v
    | None => m !! key
    end.
Proof.
  revert m. induction taglist as [|[k v] rest IH]; intros m; [reflexivity|].
  cbn [fold_left last_value]. rewrite IH.
  destruct (last_value key rest) as [w|]; [reflexivity|]. cbn.
  destruct (String.eqb k key) eqn:E.
  - apply String.eqb_eq in E. subst k. apply lookup_insert_eq.
  - apply String.eqb_neq in E. apply lookup_insert_ne. exact E.
Qed.

(** X1. A tag message that reaches a running session changes nothing but
    [tags]: every key of the message takes the value of the message (of its
    last entry for the key), every other key keeps the value it had.  So
    tags accumulate over the messages and a later message overwrites an
    earlier one key by key. *)
Theorem tags_last_write_wins (mi : number) (play : bool) (evs : list event)
    (taglist : list (string * value)) :
  let d := session mi play evs in
  terminal d = false ->
  let d' := deliver (EvBus (MESSAGE_TAG taglist)) d in
  d' = set_tags (tags d') d
  /\ forall key,
       tags d' !! key = match last_value key taglist with
                        | Some v => Some v
                        | None => tags d !! key
                        end.
Proof.
  intros d Ht d'. pose proof (inv_session mi play evs) as HI. fold d in HI.
  destruct (inv_running _ HI Ht) as (Hw & _).
  assert (E : d' = set_tags
                     (fold_left (fun t kv => <[kv.1 := kv.2]> t) taglist
                        (tags d)) d).
  { subst d'. cbn [deliver]. rewrite Hw, (inv_handlers _ HI). reflexivity. }
  rewrite E. split; [reflexivity|].
  intros key. apply fold_insert_lookup.
Qed.

Lemma tags_last_write_wins_witness :
  let d := session (PyFloat 1) true
             [EvBus (MESSAGE_TAG [("title", VStr "a"); ("bitrate", VInt 1)])] in
  let d' := deliver (EvBus (MESSAGE_TAG [("title", VStr "b")])) d in
  terminal d = false
  /\ tags d' !! "title" = Some (VStr "b")
  /\ tags d' !! "bitrate" = Some (VInt 1).
Proof.
  cbv zeta. split; [vm_compute; reflexivity|].
  pose proof (tags_last_write_wins (PyFloat 1) true
    [EvBus (MESSAGE_TAG [("title", VStr "a"); ("bitrate", VInt 1)])]
    [("title", VStr "b")]) as H.
  cbv zeta in H. destruct H as (_ & H); [vm_compute; reflexivity|].
  split; (etransitivity; [exact (H _)|vm_compute; reflexivity]).
Defined.

(** ** Errors *)

(** X2. An error message that reaches a running session runs [_finished]
    once with [False], whatever was discovered and also when the success
    criterion holds.  ['discovered'] then reports failure, once and from
    the first idle turn on, in every continuation in which no capabilities
    or unknown-type event arrives before the stop. *)
Theorem error_is_failure (mi : number) (play : bool) (evs : list event) :
  let d := session mi play evs in
  terminal d = false ->
  let d' := deliver (EvBus MESSAGE_ERROR) d in
  d' = after_finished false d
  /\ _success d' = false /\ terminal d' = true
  /\ emitted (deliver EvIdle d') = [false]
  /\ forall more, calm more d' = true ->
       emitted (run more d') = if existsb is_idle more then [false] else [].
Proof.
  intros d Ht d'. pose proof (inv_session mi play evs) as HI. fold d in HI.
  destruct (inv_running _ HI Ht) as (Hw & _).
  assert (E : d' = after_finished false d).
  { subst d'. cbn [deliver]. rewrite Hw, (inv_handlers _ HI). cbn [Nat.iter].
    pose proof (inv_bus _ HI) as Hbus. mstep.
    rewrite finished_run by exact Hbus. reflexivity. }
  rewrite E. split; [reflexivity|]. split; [apply after_finished_success|].
  split; [|split].
  - eapply terminal_pending. apply idles_after_finished, inv_pre, HI.
  - apply deliver_idle_after_finished; assumption.
  - intros more Hcalm.
    destruct (pending_after_finished false d HI Ht) as (HI' & Hi & He & Hs).
    rewrite (run_pending more _ _ HI' Hi He Hcalm), Hs. reflexivity.
Qed.

(** Audio is recognized and negotiated, then an error arrives: failure,
    also when a new pad still appears before the stop. *)
Lemma error_is_failure_witness :
  let d := session (PyFloat 1) true
             [EvNewPad "audio/x-raw-int";
              EvNotifyCaps 0 (Some audio_caps) (Some 10000000000)] in
  let more := [EvNewPad "video/x-raw-yuv"; EvIdle] in
  terminal d = false /\ success_criterion d = true
  /\ calm more (deliver (EvBus MESSAGE_ERROR) d) = true
  /\ emitted (run more (deliver (EvBus MESSAGE_ERROR) d)) = [false].
Proof.
  cbv zeta. split; [vm_compute; reflexivity|].
  split; [vm_compute; reflexivity|].
  split; [vm_compute; reflexivity|].
  pose proof (error_is_failure (PyFloat 1) true
    [EvNewPad "audio/x-raw-int";
     EvNotifyCaps 0 (Some audio_caps) (Some 10000000000)]) as H.
  cbv zeta in H.
  destruct H as (_ & _ & _ & _ & H); [vm_compute; reflexivity|].
  etransitivity; [apply H; vm_compute; reflexivity|reflexivity].
Defined.

(** ** The timer and the bus watch *)

(** X3. In every session the timer and the bus watch follow the phase:
    while the session is running there is exactly one live timeout source,
    the one in [_timeoutid], one signal watch, no stop pending and nothing
    emitted; once it is terminal there is no live timeout source,
    [_timeoutid] is 0 and the bus has no signal watch. *)
Theorem timer_and_watch_follow_phase (mi : number) (play : bool)
    (evs : list event) :
  let d := session mi play evs in
  (terminal d = false ->
   timeouts d = [_timeoutid d] /\ _timeoutid d <> 0 /\ bus_watch d = 1%nat
   /\ idles d = [] /\ emitted d = [] /\ playing d = true)
  /\ (terminal d = true ->
      timeouts d = [] /\ _timeoutid d = 0 /\ bus_watch d = 0%nat).
Proof.
  intros d. pose proof (inv_session mi play evs) as HI. fold d in HI.
  split; intros Ht.
  - destruct (inv_running _ HI Ht) as (Hw & Hto & Hlt & He & Hp & Hi & _).
    repeat split; auto. lia.
  - destruct (inv_terminal _ HI Ht) as (Hw & Hto & Hid). auto.
Qed.

Lemma timer_and_watch_follow_phase_witness :
  let d := session (PyFloat 1) true [EvNewPad "audio/x-raw-int"] in
  let d' := session (PyFloat 1) true
              [EvNewPad "audio/x-raw-int"; EvBus MESSAGE_EOS] in
  terminal d = false /\ timeouts d = [1]
  /\ terminal d' = true /\ timeouts d' = [].
Proof.
  cbv zeta. split; [vm_compute; reflexivity|].
  pose proof (timer_and_watch_follow_phase (PyFloat 1) true
    [EvNewPad "audio/x-raw-int"]) as H.
  pose proof (timer_and_watch_follow_phase (PyFloat 1) true
    [EvNewPad "audio/x-raw-int"; EvBus MESSAGE_EOS]) as H'.
  cbv zeta in H, H'. destruct H as ((H & _) & _); [vm_compute; reflexivity|].
  destruct H' as (_ & H'). destruct H' as (H' & _); [vm_compute; reflexivity|].
  split; [etransitivity; [exact H|vm_compute; reflexivity]|].
  split; [vm_compute; reflexivity|exact H'].
Defined.

(** ** A pipeline that does not start *)

Lemma run_not_started (evs : list event) (d : Discoverer) (id : Z) :
  Inv d -> playing d = false -> idles d = [id] -> emitted d = [] ->
  emitted (run evs d) = if existsb is_idle evs then [_success d] else [].
Proof.
  intros HI Hp Hi He. induction evs as [|ev evs IH]; [exact He|].
  cbn [run fold_left existsb]. fold (run evs (deliver ev d)).
  destruct (is_idle ev) eqn:Hev.
  - destruct ev; try discriminate Hev. cbn [orb].
    pose proof (inv_deliver EvIdle d HI) as HI'.
    assert (Hd : deliver EvIdle d
                 = exec _stop (exec (source_remove id) d))
      by (cbn [deliver]; rewrite Hi; reflexivity).
    rewrite run_stopped; [| exact HI' | rewrite Hd; reflexivity |].
    + rewrite Hd. cbn. rewrite He. reflexivity.
    + rewrite Hd. cbn. rewrite Hi. cbn. rewrite Z.eqb_refl. reflexivity.
  - rewrite deliver_not_playing by assumption. exact IH.
Qed.

(** X4. When [set_state(STATE_PLAYING)] fails, [discover] ends the session
    at once with failure: whatever events follow, nothing is emitted before
    the first idle turn, and from the first idle turn on exactly one
    ['discovered'] has been emitted, with [False]; the pipeline never
    plays and nothing is recognized or recorded. *)
Theorem start_failure (mi : number) (evs : list event) :
  let d := session mi false evs in
  emitted d = (if existsb is_idle evs then [false] else [])
  /\ playing d = false /\ terminal d = true
  /\ is_audio d = false /\ is_video d = false /\ otherstreams d = [].
Proof.
  intros d. subst d. unfold session.
  set (d0 := exec (discover false) (__init__ mi)).
  pose proof (inv_discover mi false) as HI0. fold d0 in HI0.
  assert (Hp : playing d0 = false) by reflexivity.
  assert (Hi : idles d0 = [2]) by reflexivity.
  assert (He : emitted d0 = []) by reflexivity.
  assert (Hs : _success d0 = false) by reflexivity.
  split; [rewrite (run_not_started evs d0 2 HI0 Hp Hi He), Hs; reflexivity|].
  assert (Hrun : forall evs', exists d1,
             run evs' d0 = d1 /\ Inv d1 /\ playing d1 = false
             /\ is_audio d1 = false /\ is_video d1 = false
             /\ otherstreams d1 = []).
  { intros evs'. exists (run evs' d0). split; [reflexivity|].
    assert (Hd : is_audio d0 = false /\ is_video d0 = false
                 /\ otherstreams d0 = [])
      by (repeat split; reflexivity).
    revert HI0 Hp Hd. generalize d0. clear.
    induction evs' as [|ev evs' IH]; intros d HI Hp Hd; [tauto|].
    cbn [run fold_left]. fold (run evs' (deliver ev d)).
    destruct (is_idle ev) eqn:Hev.
    - destruct ev; try discriminate Hev.
      apply IH; [apply inv_deliver, HI| |].
      + cbn [deliver]. destruct (idles d); [exact Hp|reflexivity].
      + cbn [deliver]. destruct (idles d); [exact Hd|]. cbn. exact Hd.
    - rewrite deliver_not_playing by assumption. apply IH; assumption. }
  destruct (Hrun evs) as (d1 & <- & HI1 & Hp1 & Hd1).
  split; [exact Hp1|]. split; [apply not_playing_terminal; assumption|].
  exact Hd1.
Qed.

(** ** Exactly one notification *)

Lemma notifications_phase_step (ev : event) (d : Discoverer) :
  Inv d -> terminal d && playing d && ends_session ev = false ->
  notifications d = (if terminal d then 1 else 0)%nat ->
  notifications (deliver ev d)
  = (if terminal (deliver ev d) then 1 else 0)%nat.
Proof.
  intros HI Hcalm Hn.
  destruct (deliver_step ev d HI) as ([Hc|b f Hc Hside|id rest Hid Hc] & _).
  - rewrite (ctl_notifications _ _ Hc).
    destruct (ctl_terminal _ _ Hc) as [-> _]. exact Hn.
  - assert (HP : Pre (set_finished (finished d || f) d))
      by (apply pre_set_finished, inv_pre, HI).
    pose proof (idles_after_finished b _ HP) as Hi.
    destruct (ctl_terminal _ _ Hc) as [-> _].
    rewrite (terminal_pending _ _ _ Hi), (ctl_notifications _ _ Hc).
    assert (Ht : terminal d = false).
    { destruct Hside as [Ht|[Hp He]]; [exact Ht|].
      rewrite Hp, He in Hcalm. destruct (terminal d); [discriminate|].
      reflexivity. }
    rewrite Ht in Hn. unfold notifications in *. rewrite Hi.
    autorewrite with frame. cbn [emitted idles set_finished].
    rewrite length_app. cbn. lia.
  - assert (Ht : terminal d = true)
      by (unfold terminal; rewrite Hid; apply orb_true_r).
    rewrite Ht in Hn. destruct (ctl_terminal _ _ Hc) as [-> _].
    rewrite (ctl_notifications _ _ Hc). unfold terminal, notifications in *.
    cbn. rewrite Hid in Hn. rewrite length_app. cbn in *. lia.
Qed.

(** X5. In a session in which no capabilities or unknown-type event arrives
    between a terminal transition and the stop, the notifications sent or
    scheduled number none while the session is running and exactly one once
    it is terminal; once the stop has run, ['discovered'] has been emitted
    exactly once. *)
Theorem exactly_one_when_calm (mi : number) (play : bool)
    (evs : list event) :
  let d0 := exec (discover play) (__init__ mi) in
  let d := run evs d0 in
  calm evs d0 = true ->
  (terminal d = false -> notifications d = 0%nat)
  /\ (terminal d = true -> notifications d = 1%nat)
  /\ (terminal d = true -> idles d = [] ->
      List.length (emitted d) = 1%nat).
Proof.
  intros d0 d Hcalm.
  assert (H : notifications d = (if terminal d then 1 else 0)%nat).
  { subst d. pose proof (inv_discover mi play) as HI0. fold d0 in HI0.
    assert (H0 : notifications d0 = (if terminal d0 then 1 else 0)%nat).
    { subst d0. destruct play; [reflexivity|].
      unfold discover. mstep. rewrite finished_run by reflexivity.
      reflexivity. }
    revert HI0 H0 Hcalm. generalize d0. clear.
    induction evs as [|ev evs IH]; intros d HI Hn Hcalm; [exact Hn|].
    cbn in Hcalm. apply andb_true_iff in Hcalm as [Hev Hcalm].
    apply negb_true_iff in Hev.
    cbn [run fold_left]. fold (run evs (deliver ev d)).
    apply IH; [apply inv_deliver, HI| |exact Hcalm].
    apply notifications_phase_step; assumption. }
  split; [|split].
  - intros Ht. rewrite Ht in H. exact H.
  - intros Ht. rewrite Ht in H. exact H.
  - intros Ht Hi. rewrite Ht in H. unfold notifications in H.
    rewrite Hi in H. cbn in H. lia.
Qed.

Lemma exactly_one_when_calm_witness :
  let evs := [EvNewPad "audio/x-raw-int"; EvNoMorePads;
              EvNotifyCaps 0 (Some audio_caps) (Some 10000000000);
              EvBus MESSAGE_EOS; EvIdle] in
  let d0 := exec (discover true) (__init__ (PyFloat 1)) in
  calm evs d0 = true /\ terminal (run evs d0) = true
  /\ idles (run evs d0) = []
  /\ List.length (emitted (run evs d0)) = 1%nat.
Proof.
  cbv zeta. split; [vm_compute; reflexivity|].
  split; [vm_compute; reflexivity|]. split; [vm_compute; reflexivity|].
  pose proof (exactly_one_when_calm (PyFloat 1) true
    [EvNewPad "audio/x-raw-int"; EvNoMorePads;
     EvNotifyCaps 0 (Some audio_caps) (Some 10000000000);
     EvBus MESSAGE_EOS; EvIdle]) as H.
  cbv zeta in H. destruct H as (_ & _ & H); [vm_compute; reflexivity|].
  apply H; vm_compute; reflexivity.
Defined.

(** ** The capabilities handler *)

(** X6. Once [discover] has assigned the bus, [_notify_caps_cb] on a caps
    with at least one structure returns normally exactly when the first
    structure has every field that the handler reads for the caps' kind.  Otherwise it raises [KeyError] for
    the first field that is missing, in the order of the reads: the caps
    and the length of the kind are recorded by then, and the completion
    state and the outcome are as before. *)
Theorem caps_fields_required (str : string) (st : gmap string value)
    (sts : list (gmap string value)) (duration : option Z)
    (d : Discoverer) :
  let caps := {| to_string := str; structures := st :: sts |} in
  let r := _notify_caps_cb (Some caps) duration d in
  bus d = true ->
  match find (lacks st) (caps_fields str) with
  | None => fst r = Ok tt
  | Some key =>
      fst r = Raise (KeyError key)
      /\ ctl (snd r) = ctl d /\ _success (snd r) = _success d
      /\ (contains "audio" str = true ->
          audiocaps (snd r) = CapsObj caps
          /\ audiolength (snd r) = recorded_length duration)
      /\ (contains "audio" str = false ->
          videocaps (snd r) = CapsObj caps
          /\ videolength (snd r) = recorded_length duration)
  end.
Proof.
  cbv zeta. intros Hbus.
  unfold _notify_caps_cb, caps_fields, lacks.
  cbn [negb caps_nonzero structures to_string].
  destruct (contains "audio" str) eqn:Ha.
  - cbn [app find]. mstep.
    destruct (st !! "rate"); cbn; [|repeat split; auto; discriminate].
    destruct (st !! "width"); cbn; [|repeat split; auto; discriminate].
    destruct (st !! "channels"); cbn; [|repeat split; auto; discriminate].
    destruct (contains "x-raw-float" str); cbn.
    + destruct (_nomorepads d
                && (negb (is_video d) || truthy (videocaps d))); cbn; auto.
      rewrite finished_run by exact Hbus. reflexivity.
    + destruct (st !! "depth"); cbn; [|repeat split; auto; discriminate].
      destruct (_nomorepads d
                && (negb (is_video d) || truthy (videocaps d))); cbn; auto.
      rewrite finished_run by exact Hbus. reflexivity.
  - destruct (contains "video" str) eqn:Hv; [|reflexivity].
    cbn [find]. mstep.
    destruct (st !! "width"); cbn; [|repeat split; auto; discriminate].
    destruct (st !! "height"); cbn; [|repeat split; auto; discriminate].
    destruct (st !! "framerate"); cbn; [|repeat split; auto; discriminate].
    destruct (_nomorepads d
              && (negb (is_audio d) || truthy (audiocaps d))); cbn; auto.
    rewrite finished_run by exact Hbus. reflexivity.
Qed.

Lemma caps_fields_required_witness :
  let d := exec (discover true) (__init__ (PyFloat 1)) in
  let r := _notify_caps_cb (Some mixed_caps) None d in
  bus d = true /\ fst r = Raise (KeyError "width")
  /\ audiocaps (snd r) = CapsObj mixed_caps /\ audiolength (snd r) = -1.
Proof.
  cbv zeta. split; [reflexivity|].
  pose proof (caps_fields_required "audio/x-raw-int, rate=8000, note=video"
    {[ "rate" := VInt 8000 ]} [] None
    (exec (discover true) (__init__ (PyFloat 1))) eq_refl) as H.
  vm_compute in H. destruct H as (H1 & _ & _ & H2 & _).
  split; [vm_compute; exact H1|]. vm_compute. apply H2. reflexivity.
Defined.

Ltac take_state :=
  refine (ex_intro _ _ (conj _ (conj _ (conj _ (conj _ eq_refl)))));
  cbn; auto.

Lemma notify_caps_run (str : string) (st : gmap string value)
    (sts : list (gmap string value)) (duration : option Z)
    (d : Discoverer) :
  bus d = true ->
  unset_or_truthy (audiocaps d) -> unset_or_truthy (videocaps d) ->
  let caps := {| to_string := str; structures := st :: sts |} in
  let r := _notify_caps_cb (Some caps) duration d in
  exists x,
    ctl x = ctl d /\ unset_or_truthy (audiocaps x)
    /\ unset_or_truthy (videocaps x) /\ _success x = _success d
    /\ snd r = if match fst r with
                  | Ok _ => caps_complete str d
                  | Raise _ => false
                  end
               then after_finished true x else x.
Proof.
  intros Hbus Hac Hvc. cbv zeta.
  unfold _notify_caps_cb, caps_complete.
  rewrite <- (truthy_recorded _ Hac), <- (truthy_recorded _ Hvc).
  cbn [negb caps_nonzero structures to_string].
  assert (Ht : forall c, unset_or_truthy
             (CapsObj {| to_string := str; structures := st :: c |}))
    by (intros c; right; reflexivity).
  destruct (contains "audio" str) eqn:Ha.
  - mstep.
    destruct (st !! "rate"); cbn;
      [|take_state].
    destruct (st !! "width"); cbn;
      [|take_state].
    destruct (st !! "channels"); cbn;
      [|take_state].
    destruct (contains "x-raw-float" str); cbn.
    + destruct (_nomorepads d
                && (negb (is_video d) || truthy (videocaps d))); cbn.
      * rewrite finished_run by exact Hbus. cbn.
        take_state.
      * take_state.
    + destruct (st !! "depth"); cbn;
        [|take_state].
      destruct (_nomorepads d
                && (negb (is_video d) || truthy (videocaps d))); cbn.
      * rewrite finished_run by exact Hbus. cbn.
        take_state.
      * take_state.
  - destruct (contains "video" str) eqn:Hv;
      [|exists d; repeat split; auto].
    mstep.
    destruct (st !! "width"); cbn;
      [|take_state].
    destruct (st !! "height"); cbn;
      [|take_state].
    destruct (st !! "framerate"); cbn;
      [|take_state].
    destruct (_nomorepads d
              && (negb (is_audio d) || truthy (audiocaps d))); cbn.
    + rewrite finished_run by exact Hbus. cbn.
      take_state.
    + take_state.
Qed.

(** X7. In a running session a capabilities notification ends the session
    exactly when it carries negotiated caps with at least one structure,
    the handler returns normally, no-more-pads was announced before, and
    the other kind is either not recognized or already has its capability.
    The outcome is then success, and ['discovered'] reports [True], once
    and from the first idle turn on, in every continuation in which no
    capabilities or unknown-type event arrives before the stop.  In every
    other case (no negotiated caps yet, caps without a structure, a missing
    field, no-more-pads not yet announced, the other kind still without
    its capability) the completion state stays as it was. *)
Theorem completion_by_capabilities (mi : number) (play : bool)
    (evs : list event) (negotiated : option Caps) (duration : option Z) :
  let d := session mi play evs in
  let r := _notify_caps_cb negotiated duration d in
  let completes :=
    match negotiated with
    | Some caps =>
        match fst r with
        | Ok _ => caps_nonzero caps && caps_complete (to_string caps) d
        | Raise _ => false
        end
    | None => false
    end in
  terminal d = false ->
  terminal (snd r) = completes
  /\ (completes = true ->
      _success (snd r) = true
      /\ emitted (deliver EvIdle (snd r)) = [true]
      /\ forall more, calm more (snd r) = true ->
         emitted (run more (snd r))
         = if existsb is_idle more then [true] else [])
  /\ (completes = false -> ctl (snd r) = ctl d).
Proof.
  intros d r completes Ht.
  pose proof (inv_session mi play evs) as HI. fold d in HI.
  destruct negotiated as [[str [|st sts]]|].
  - subst completes r. cbn. rewrite Ht.
    split; [reflexivity|]. split; [discriminate|reflexivity].
  - change completes with (match fst r with
                           | Ok _ => caps_complete str d
                           | Raise _ => false
                           end).
    clearbody completes. clear completes.
    destruct (notify_caps_run str st sts duration d (inv_bus _ HI)
                (inv_acaps _ HI) (inv_vcaps _ HI))
      as (x & Hc & Hxa & Hxv & Hs & E).
    cbv zeta in E. fold r in E.
    assert (HIx : Inv x) by (apply (inv_ext d x); auto).
    assert (Htx : terminal x = false)
      by (destruct (ctl_terminal _ _ Hc) as [-> _]; exact Ht).
    rewrite E.
    destruct (match fst r with
              | Ok _ => caps_complete str d
              | Raise _ => false
              end).
    + destruct (pending_after_finished true x HIx Htx)
        as (HI' & Hi & He & Hs').
      split; [exact (terminal_pending _ [] _ Hi)|].
      split; [|discriminate].
      intros _. split; [exact Hs'|].
      split; [apply deliver_idle_after_finished; assumption|].
      intros more Hcalm.
      rewrite (run_pending more _ _ HI' Hi He Hcalm), Hs'. reflexivity.
    + split; [exact Htx|]. split; [discriminate|]. intros _. exact Hc.
  - subst completes r. cbn. rewrite Ht.
    split; [reflexivity|]. split; [discriminate|reflexivity].
Qed.

(** An audio pad, no-more-pads, then the negotiation: success, also when
    the type is found only afterwards.  A notification before the
    negotiation leaves the session running. *)
Lemma completion_by_capabilities_witness :
  let d := session (PyFloat 1) true
             [EvNewPad "audio/x-raw-int"; EvNoMorePads] in
  let r := _notify_caps_cb (Some audio_caps) (Some 10000000000) d in
  let more := [EvHaveType "audio/x-wav"; EvIdle] in
  terminal d = false /\ terminal (snd r) = true
  /\ calm more (snd r) = true /\ emitted (run more (snd r)) = [true]
  /\ terminal (snd (_notify_caps_cb None None d)) = false.
Proof.
  cbv zeta. split; [vm_compute; reflexivity|].
  pose proof (completion_by_capabilities (PyFloat 1) true
    [EvNewPad "audio/x-raw-int"; EvNoMorePads]
    (Some audio_caps) (Some 10000000000)) as H.
  pose proof (completion_by_capabilities (PyFloat 1) true
    [EvNewPad "audio/x-raw-int"; EvNoMorePads] None None) as H'.
  cbv zeta in H, H'.
  destruct H as (H1 & H2 & _); [vm_compute; reflexivity|].
  destruct H2 as (_ & _ & H2); [vm_compute; reflexivity|].
  destruct H' as (H' & _); [vm_compute; reflexivity|].
  split; [etransitivity; [exact H1|vm_compute; reflexivity]|].
  split; [vm_compute; reflexivity|].
  split; [etransitivity; [apply H2; vm_compute; reflexivity|reflexivity]|].
  exact H'.
Defined.

(** ** What the handlers leave alone *)

Lemma notify_caps_untouched (negotiated : option Caps)
    (duration : option Z) (d : Discoverer) :
  let d' := exec (_notify_caps_cb negotiated duration) d in
  children d' = children d /\ sinknumber d' = sinknumber d
  /\ is_audio d' = is_audio d /\ is_video d' = is_video d
  /\ otherstreams d' = otherstreams d /\ tags d' = tags d
  /\ mimetype d' = mimetype d /\ _nomorepads d' = _nomorepads d.
Proof.
  cbv zeta. unfold _notify_caps_cb.
  destruct negotiated as [[str [|st sts]]|]; cbn; auto 12.
  destruct (contains "audio" str).
  - mstep. lookup_cases; auto 12.
    all: destruct (contains "x-raw-float" str); cbn; lookup_cases; auto 12.
    all: destruct (_nomorepads d
                   && (negb (is_video d) || truthy (videocaps d)));
      cbn; auto 12.
    all: run_finished; cbn; autorewrite with frame; cbn; auto 12.
  - destruct (contains "video" str); [|cbn; auto 12].
    mstep. lookup_cases; auto 12.
    destruct (_nomorepads d && (negb (is_audio d) || truthy (audiocaps d)));
      cbn; auto 12.
    run_finished; cbn; autorewrite with frame; cbn; auto 12.
Qed.

Lemma nomorepads_deliver (ev : event) (d : Discoverer) :
  Inv d -> _nomorepads d = true -> _nomorepads (deliver ev d) = true.
Proof.
  intros HI Hn. pose proof (inv_bus _ HI) as Hbus.
  destruct ev as [msg|id| |caps| |caps|caps|sink neg dur|sink];
    cbn [deliver].
  - destruct (0 <? bus_watch d)%nat; [|exact Hn].
    rewrite (inv_handlers _ HI). cbn.
    destruct msg as [|tl| |].
    + change (exec (_bus_message_cb MESSAGE_EOS) d)
        with (exec _timed_out_or_eos d).
      rewrite timed_out_or_eos_run by exact Hbus.
      autorewrite with frame. exact Hn.
    + exact Hn.
    + mstep. rewrite finished_run by exact Hbus. cbn.
      autorewrite with frame. exact Hn.
    + exact Hn.
  - destruct (existsb (Z.eqb id) (timeouts d)); [|exact Hn].
    rewrite timed_out_or_eos_run by exact Hbus. mstep.
    autorewrite with frame. exact Hn.
  - destruct (idles d); exact Hn.
  - destruct (playing d); [|exact Hn].
    unfold _new_decoded_pad_cb.
    destruct (contains "audio" caps);
      [|destruct (contains "video" caps); [|exact Hn]];
      mstep; destruct (make_queue (_max_interleave d)); exact Hn.
  - destruct (playing d); [reflexivity|exact Hn].
  - destruct (playing d); [|exact Hn].
    rewrite unknown_type_run by exact Hbus. cbv zeta.
    destruct (negb (is_video d) && negb (is_audio d));
      autorewrite with frame; exact Hn.
  - destruct (playing d); exact Hn.
  - destruct (playing d && (sink <? List.length (children d))%nat);
      [|exact Hn].
    destruct (notify_caps_untouched neg dur d)
      as (_ & _ & _ & _ & _ & _ & _ & ->). exact Hn.
  - destruct (playing d); [|exact Hn]. unfold overrun_child.
    destruct (nth_error (children d) sink) as [[s q]|]; exact Hn.
Qed.

(** ** No more pads *)

(** X8. In a running session the no-more-pads signal only sets its flag:
    it never ends the session by itself, even when every recognized kind
    already has its capability, and the outcome that end-of-stream would
    give stays the same.  The flag is never cleared again in the session. *)
Theorem no_more_pads_only_flags (mi : number) (play : bool)
    (evs more : list event) :
  let d := session mi play evs in
  terminal d = false ->
  let d' := deliver EvNoMorePads d in
  d' = set__nomorepads true d
  /\ terminal d' = false
  /\ success_criterion d' = success_criterion d
  /\ _nomorepads (run more d') = true.
Proof.
  intros d Ht d'.
  pose proof (inv_session mi play evs) as HI. fold d in HI.
  destruct (inv_running _ HI Ht) as (_ & _ & _ & _ & Hp & _).
  assert (E : d' = set__nomorepads true d)
    by (subst d'; cbn [deliver]; rewrite Hp; reflexivity).
  split; [exact E|]. split; [rewrite E; exact Ht|].
  split; [rewrite E; reflexivity|].
  assert (HI' : Inv d') by (apply inv_deliver, HI).
  assert (Hn : _nomorepads d' = true) by (rewrite E; reflexivity).
  revert HI' Hn. generalize d'. clear.
  induction more as [|ev more IH]; intros d HI Hn; [exact Hn|].
  cbn [run fold_left]. fold (run more (deliver ev d)).
  apply IH; [apply inv_deliver, HI|apply nomorepads_deliver; assumption].
Qed.

Lemma no_more_pads_only_flags_witness :
  let d := session (PyFloat 1) true
             [EvNewPad "audio/x-raw-int";
              EvNotifyCaps 0 (Some audio_caps) (Some 10000000000)] in
  terminal d = false
  /\ terminal (deliver EvNoMorePads d) = false
  /\ success_criterion (deliver EvNoMorePads d) = true.
Proof.
  cbv zeta. split; [vm_compute; reflexivity|].
  pose proof (no_more_pads_only_flags (PyFloat 1) true
    [EvNewPad "audio/x-raw-int";
     EvNotifyCaps 0 (Some audio_caps) (Some 10000000000)] []) as H.
  cbv zeta in H. destruct H as (_ & H1 & H2 & _); [vm_compute; reflexivity|].
  split; [exact H1|].
  etransitivity; [exact H2|vm_compute; reflexivity].
Defined.

(** ** The fakesinks *)

Lemma sink_numbers_overrun (i : nat) (d : Discoverer) :
  sink_numbers (overrun_child i d) = sink_numbers d
  /\ sinknumber (overrun_child i d) = sinknumber d.
Proof.
  unfold overrun_child, sink_numbers.
  destruct (nth_error (children d) i) as [[s q]|] eqn:E; [|auto].
  cbn. split; [|reflexivity].
  destruct (nth_error_split _ _ E) as (pre & post & Hc & Hl).
  rewrite Hc, <- Hl, replace_middle, !map_app. reflexivity.
Qed.

Lemma deliver_graph (ev : event) (d : Discoverer) :
  Inv d ->
  let d' := deliver ev d in
  (sinknumber d' = sinknumber d /\ sink_numbers d' = sink_numbers d)
  \/ (sinknumber d' = sinknumber d + 1
      /\ (sink_numbers d' = sink_numbers d
          \/ sink_numbers d' = sink_numbers d ++ [sinknumber d])).
Proof.
  intros HI. pose proof (inv_bus _ HI) as Hbus. cbv zeta.
  unfold sink_numbers.
  destruct ev as [msg|id| |caps| |caps|caps|sink neg dur|sink];
    cbn [deliver].
  - destruct (0 <? bus_watch d)%nat; [|auto].
    rewrite (inv_handlers _ HI). cbn.
    destruct msg as [|tl| |]; auto.
    + change (exec (_bus_message_cb MESSAGE_EOS) d)
        with (exec _timed_out_or_eos d).
      rewrite timed_out_or_eos_run by exact Hbus.
      autorewrite with frame. auto.
    + mstep. rewrite finished_run by exact Hbus. cbn.
      autorewrite with frame. auto.
  - destruct (existsb (Z.eqb id) (timeouts d)); [|auto].
    rewrite timed_out_or_eos_run by exact Hbus. mstep.
    autorewrite with frame. auto.
  - destruct (idles d); auto.
  - destruct (playing d); [|auto].
    unfold _new_decoded_pad_cb.
    destruct (contains "audio" caps);
      [|destruct (contains "video" caps); [|auto]];
      mstep; destruct (make_queue (_max_interleave d)); cbn;
      rewrite ?map_app; cbn; auto.
  - destruct (playing d); auto.
  - destruct (playing d); [|auto].
    rewrite unknown_type_run by exact Hbus. cbv zeta.
    destruct (negb (is_video d) && negb (is_audio d));
      autorewrite with frame; auto.
  - destruct (playing d); auto.
  - destruct (playing d && (sink <? List.length (children d))%nat);
      [|auto].
    destruct (notify_caps_untouched neg dur d) as (-> & -> & _). auto.
  - destruct (playing d); [|auto].
    destruct (sink_numbers_overrun sink d) as [H1 H2].
    unfold sink_numbers in H1. auto.
Qed.

Lemma sinks_step (ev : event) (d : Discoverer) :
  Inv d ->
  NoDup (sink_numbers d)
  /\ Forall (fun n => 0 <= n < sinknumber d) (sink_numbers d)
  /\ 0 <= sinknumber d ->
  NoDup (sink_numbers (deliver ev d))
  /\ Forall (fun n => 0 <= n < sinknumber (deliver ev d))
       (sink_numbers (deliver ev d))
  /\ 0 <= sinknumber (deliver ev d).
Proof.
  intros HI (Hn & Hb & H0).
  assert (Hb' : Forall (fun n => 0 <= n < sinknumber d + 1)
                  (sink_numbers d))
    by (eapply Forall_impl; [exact Hb|]; cbn; intros; lia).
  destruct (deliver_graph ev d HI) as [[-> ->]|[-> [->| ->]]].
  - auto.
  - repeat split; [exact Hn|exact Hb'|lia].
  - split; [|split; [|lia]].
    + apply nodup_snoc; [|exact Hn].
      eapply Forall_impl; [exact Hb|]. cbn. intros. lia.
    + apply Forall_app. split; [exact Hb'|].
      constructor; [lia|constructor].
Qed.

(** X9. In every session the numbers in the names of the fakesinks in the
    pipeline ([fakesink0], [fakesink1], ...) are pairwise distinct, and
    each is at least 0 and below the counter [sinknumber]; no event makes
    the counter go down. *)
Theorem fakesink_names_distinct (mi : number) (play : bool)
    (evs : list event) (ev : event) :
  let d := session mi play evs in
  NoDup (sink_numbers d)
  /\ Forall (fun n => 0 <= n < sinknumber d) (sink_numbers d)
  /\ sinknumber d <= sinknumber (deliver ev d).
Proof.
  intros d.
  pose proof (inv_session mi play evs) as HI. fold d in HI.
  assert (H : NoDup (sink_numbers d)
              /\ Forall (fun n => 0 <= n < sinknumber d) (sink_numbers d)
              /\ 0 <= sinknumber d).
  { clear HI. subst d. unfold session.
    pose proof (inv_discover mi play) as HI0.
    assert (H0 : NoDup (sink_numbers (exec (discover play) (__init__ mi)))
                 /\ Forall
                      (fun n => 0 <= n
                                < sinknumber
                                    (exec (discover play) (__init__ mi)))
                      (sink_numbers (exec (discover play) (__init__ mi)))
                 /\ 0 <= sinknumber (exec (discover play) (__init__ mi))).
    { destruct play; repeat split; try constructor; discriminate. }
    revert HI0 H0. generalize (exec (discover play) (__init__ mi)).
    induction evs as [|e evs IH]; intros d HI H; [exact H|].
    cbn [run fold_left]. fold (run evs (deliver e d)).
    apply IH; [apply inv_deliver, HI|apply sinks_step; assumption]. }
  destruct H as (Hn & Hb & _). split; [exact Hn|]. split; [exact Hb|].
  destruct (deliver_graph ev d HI) as [[-> _]|[-> _]]; lia.
Qed.

(** ** Sessions without a recognized stream *)

Lemma unrecognized_step (ev : event) (d : Discoverer) :
  Inv d -> recognizes ev = false ->
  is_audio d = false /\ is_video d = false /\ children d = []
  /\ _success d = false /\ Forall (eq false) (emitted d) ->
  let d' := deliver ev d in
  is_audio d' = false /\ is_video d' = false /\ children d' = []
  /\ _success d' = false /\ Forall (eq false) (emitted d').
Proof.
  intros HI Hev (Ha & Hv & Hc & Hs & He).
  pose proof (inv_bus _ HI) as Hbus. cbv zeta.
  destruct ev as [msg|id| |caps| |caps|caps|sink neg dur|sink];
    cbn [deliver].
  - destruct (0 <? bus_watch d)%nat; [|auto].
    rewrite (inv_handlers _ HI). cbn.
    destruct msg as [|tl| |]; auto.
    + change (exec (_bus_message_cb MESSAGE_EOS) d)
        with (exec _timed_out_or_eos d).
      rewrite timed_out_or_eos_run by exact Hbus.
      unfold eos_outcome. rewrite Ha, Hv. cbn.
      autorewrite with frame. auto.
    + mstep. rewrite finished_run by exact Hbus. cbn.
      autorewrite with frame. auto.
  - destruct (existsb (Z.eqb id) (timeouts d)); [|auto].
    rewrite timed_out_or_eos_run by exact Hbus.
    unfold eos_outcome. rewrite Ha, Hv. mstep.
    autorewrite with frame. auto.
  - destruct (idles d); [auto|]. cbn. rewrite Hs.
    repeat split; auto. apply Forall_app. split; [exact He|].
    constructor; [reflexivity|constructor].
  - destruct (playing d); [|auto]. cbn in Hev.
    apply orb_false_iff in Hev as [H1 H2].
    rewrite new_pad_other by assumption. auto.
  - destruct (playing d); auto.
  - destruct (playing d); [|auto].
    rewrite unknown_type_run by exact Hbus. cbv zeta.
    rewrite Ha, Hv. cbn. autorewrite with frame. auto.
  - destruct (playing d); auto.
  - rewrite Hc. cbn. rewrite andb_false_r. auto.
  - destruct (playing d); [|auto]. unfold overrun_child. rewrite Hc.
    destruct sink; cbn; auto.
Qed.

(** X10. A session in which no new pad is classified as audio or video
    never succeeds, however it ends and whatever else arrives: every
    ['discovered'] it emits carries [False], no fakesink is ever added and
    no kind is recognized. *)
Theorem unrecognized_never_succeeds (mi : number) (play : bool)
    (evs : list event) :
  let d := session mi play evs in
  Forall (fun ev => recognizes ev = false) evs ->
  Forall (eq false) (emitted d)
  /\ _success d = false /\ children d = []
  /\ is_audio d = false /\ is_video d = false.
Proof.
  intros d Hevs.
  assert (H : is_audio d = false /\ is_video d = false /\ children d = []
              /\ _success d = false /\ Forall (eq false) (emitted d)).
  { subst d. unfold session.
    pose proof (inv_discover mi play) as HI0.
    assert (H0 : let d0 := exec (discover play) (__init__ mi) in
                 is_audio d0 = false /\ is_video d0 = false
                 /\ children d0 = [] /\ _success d0 = false
                 /\ Forall (eq false) (emitted d0))
      by (destruct play; repeat split; constructor).
    cbv zeta in H0.
    revert HI0 H0. generalize (exec (discover play) (__init__ mi)).
    induction Hevs as [|e evs He Hevs IH]; intros d HI H; [exact H|].
    cbn [run fold_left]. fold (run evs (deliver e d)).
    apply IH; [apply inv_deliver, HI|apply unrecognized_step; assumption]. }
  tauto.
Qed.

Lemma unrecognized_never_succeeds_witness :
  let evs := [EvHaveType "text/plain"; EvUnknownType "text/plain";
              EvNoMorePads; EvIdle] in
  Forall (fun ev => recognizes ev = false) evs
  /\ Forall (eq false) (emitted (session (PyFloat 1) true evs))
  /\ emitted (session (PyFloat 1) true evs) = [false].
Proof.
  cbv zeta.
  assert (H : Forall (fun ev => recognizes ev = false)
                [EvHaveType "text/plain"; EvUnknownType "text/plain";
                 EvNoMorePads; EvIdle])
    by (repeat constructor).
  split; [exact H|]. split; [|vm_compute; reflexivity].
  exact (proj1 (unrecognized_never_succeeds (PyFloat 1) true _ H)).
Defined.

(** ** Calling [discover] again *)

Lemma filter_keep (x id : Z) (l : list Z) :
  x <> id ->
  filter (fun i => negb (Z.eqb i id)) (x :: l)
  = x :: filter (fun i => negb (Z.eqb i id)) l.
Proof. intros H. apply Z.eqb_neq in H. cbn. rewrite H. reflexivity. Qed.

Lemma filter_drop (id : Z) (l : list Z) :
  filter (fun i => negb (Z.eqb i id)) (id :: l)
  = filter (fun i => negb (Z.eqb i id)) l.
Proof. cbn. rewrite Z.eqb_refl. reflexivity. Qed.

Lemma filter_none (id : Z) :
  filter (fun i => negb (Z.eqb i id)) [] = [].
Proof. reflexivity. Qed.

Lemma discover_again (d : Discoverer) :
  finished d = false ->
  exec (discover true) d
  = set_pipeline_state STATE_PLAYING
      (set__timeoutid (glib_next d)
         (set_glib_next (glib_next d + 1)
            (set_timeouts (timeouts d ++ [glib_next d])
               (set_bus_handlers (S (bus_handlers d))
                  (set_bus_watch (S (bus_watch d)) (set_bus true d)))))).
Proof. intros Hf. unfold discover. mstep. rewrite Hf. reflexivity. Qed.

Lemma deliver_eos_twice (d : Discoverer) :
  bus d = true -> bus_watch d = 2%nat -> bus_handlers d = 2%nat ->
  deliver (EvBus MESSAGE_EOS) d
  = after_finished (eos_outcome d) (after_finished (eos_outcome d) d).
Proof.
  intros Hbus Hw Hh. unfold deliver. rewrite Hw, Hh.
  change (exec _timed_out_or_eos (exec _timed_out_or_eos d)
          = after_finished (eos_outcome d)
              (after_finished (eos_outcome d) d)).
  rewrite (timed_out_or_eos_run d) by exact Hbus.
  rewrite timed_out_or_eos_run by (rewrite after_finished_bus; exact Hbus).
  unfold eos_outcome at 1. autorewrite with frame. reflexivity.
Qed.

Lemma finished_twice (b : bool) (d : Discoverer) (t : Z) :
  timeouts d = [t; _timeoutid d] -> idles d = [] ->
  _timeoutid d <> 0 -> t <> _timeoutid d ->
  let d' := after_finished b (after_finished b d) in
  timeouts d' = [t] /\ _timeoutid d' = 0
  /\ idles d' = [glib_next d; glib_next d + 1]
  /\ emitted d' = emitted d /\ _success d' = b /\ bus d' = bus d
  /\ glib_next d' = glib_next d + 1 + 1.
Proof.
  intros Hto Hi H0 Ht. cbv zeta.
  apply Z.eqb_neq in H0.
  unfold after_finished. rewrite H0. cbn -[filter].
  rewrite Hto, Hi, filter_none, filter_keep, filter_drop, filter_none
    by exact Ht.
  cbn. auto 10.
Qed.

Lemma deliver_idle_head (d : Discoverer) (a : Z) (rest : list Z) :
  idles d = a :: rest -> NoDup (a :: rest) ->
  let d' := deliver EvIdle d in
  idles d' = rest /\ emitted d' = emitted d ++ [_success d]
  /\ _success d' = _success d.
Proof.
  intros Hi Hnd. cbv zeta. unfold deliver. rewrite Hi.
  unfold exec, source_remove, _stop, emit_discovered, set_state, modify,
    gets, bind, ret.
  cbn -[filter]. rewrite Hi, (filter_head a rest Hnd). auto.
Qed.

Lemma two_stops (d : Discoverer) (a b : Z) :
  idles d = [a; b] -> a <> b ->
  emitted (deliver EvIdle (deliver EvIdle d))
  = emitted d ++ [_success d; _success d].
Proof.
  intros Hi Hab.
  assert (Hnd : NoDup [a; b]).
  { apply NoDup_cons. split; [|apply NoDup_singleton].
    intros H. inversion H as [|? ? ? H']; [congruence|inversion H']. }
  destruct (deliver_idle_head d a [b] Hi Hnd) as (Hi1 & He1 & Hs1).
  assert (Hnd1 : NoDup [b]) by (apply NoDup_singleton).
  destruct (deliver_idle_head (deliver EvIdle d) b [] Hi1 Hnd1)
    as (_ & He2 & _).
  rewrite He2, He1, Hs1, <- app_assoc. reflexivity.
Qed.

Lemma stale_timeout (d : Discoverer) (t : Z) :
  bus d = true -> timeouts d = [t] -> _timeoutid d = 0 ->
  Forall (fun i => i <> t) (idles d) -> glib_next d <> t ->
  idles (deliver (EvTimeout t) d) = idles d ++ [glib_next d].
Proof.
  intros Hbus Hto H0 Hi Hg. unfold deliver.
  rewrite Hto. cbn [existsb orb]. rewrite Z.eqb_refl. cbn [orb].
  rewrite timed_out_or_eos_run by exact Hbus.
  unfold exec, source_remove, modify. cbn -[filter].
  unfold after_finished. rewrite H0. cbn -[filter].
  assert (H : Forall (fun i => i <> t) (idles d ++ [glib_next d])).
  { apply Forall_app. split; [exact Hi|]. constructor; [exact Hg|].
    constructor. }
  apply filter_all. exact H.
Qed.

(** X11. A second call of [discover] on a running session adds a second
    timeout and overwrites [_timeoutid], and connects the message handler a
    second time.  End-of-stream then runs the completion twice and
    schedules two stops, so ['discovered'] is emitted twice; only the
    second timeout is removed, and when the first one fires later it
    schedules a third stop. *)
Theorem second_discover_leaks (mi : number) (play : bool)
    (evs : list event) :
  let d := session mi play evs in
  terminal d = false ->
  let d2 := exec (discover true) d in
  let eos := deliver (EvBus MESSAGE_EOS) d2 in
  timeouts d2 = [_timeoutid d; _timeoutid d2]
  /\ _timeoutid d2 <> _timeoutid d
  /\ bus_handlers d2 = 2%nat
  /\ timeouts eos = [_timeoutid d]
  /\ List.length (idles eos) = 2%nat
  /\ emitted (deliver EvIdle (deliver EvIdle eos))
     = [success_criterion d; success_criterion d]
  /\ List.length (idles (deliver (EvTimeout (_timeoutid d)) eos)) = 3%nat.
Proof.
  intros d Ht d2 eos.
  pose proof (inv_session mi play evs) as HI. fold d in HI.
  clearbody d.
  destruct (inv_running _ HI Ht) as (Hw & Hto & Hlt & He & Hp & Hi & Hf).
  pose proof (inv_bus _ HI) as Hbus. pose proof (inv_handlers _ HI) as Hh.
  pose proof (discover_again d Hf) as E2. fold d2 in E2.
  rewrite Hto, Hw, Hh in E2. clearbody d2.
  assert (F2 : bus d2 = true /\ bus_watch d2 = 2%nat
               /\ bus_handlers d2 = 2%nat
               /\ timeouts d2 = [_timeoutid d; _timeoutid d2]
               /\ _timeoutid d2 = glib_next d /\ idles d2 = []
               /\ glib_next d2 = glib_next d + 1 /\ emitted d2 = []
               /\ eos_outcome d2 = success_criterion d).
  { rewrite <- (eos_outcome_criterion d HI), E2. cbn.
    rewrite Hi, He. repeat split. }
  clear E2.
  destruct F2 as (Hb2 & Hw2 & Hh2 & Hto2 & Hid2 & Hi2 & Hg2 & He2 & Ho2).
  pose proof (deliver_eos_twice d2 Hb2 Hw2 Hh2) as Eeos. fold eos in Eeos.
  clearbody eos. rewrite Ho2 in Eeos.
  destruct (finished_twice (success_criterion d) d2 (_timeoutid d) Hto2 Hi2)
    as (Hto3 & Hid3 & Hi3 & He3 & Hs3 & Hb3 & Hg3); [lia|lia|].
  rewrite <- Eeos in Hto3, Hid3, Hi3, He3, Hs3, Hb3, Hg3. clear Eeos.
  split; [exact Hto2|]. split; [lia|]. split; [exact Hh2|].
  split; [exact Hto3|]. split; [rewrite Hi3; reflexivity|].
  split.
  - rewrite (two_stops eos _ _ Hi3) by lia. rewrite He3, He2, Hs3.
    reflexivity.
  - rewrite Hb2 in Hb3.
    rewrite (stale_timeout eos (_timeoutid d) Hb3 Hto3 Hid3).
    + rewrite Hi3. reflexivity.
    + rewrite Hi3. repeat constructor; lia.
    + lia.
Qed.

Lemma second_discover_leaks_witness :
  let d := session (PyFloat 1) true [] in
  let eos := deliver (EvBus MESSAGE_EOS) (exec (discover true) d) in
  terminal d = false
  /\ timeouts eos = [1]
  /\ emitted (deliver EvIdle (deliver EvIdle eos)) = [false; false].
Proof.
  cbv zeta. split; [vm_compute; reflexivity|].
  pose proof (second_discover_leaks (PyFloat 1) true []) as H.
  cbv zeta in H. destruct H as (_ & _ & _ & H2 & _ & H3 & _);
    [vm_compute; reflexivity|].
  split.
  - etransitivity; [exact H2|vm_compute; reflexivity].
  - etransitivity; [exact H3|vm_compute; reflexivity].
Defined.

(** ** [_time_to_string] *)

Lemma append_nil (b : string) : EmptyString +:+ b = b.
Proof. reflexivity. Qed.

Lemma append_cons (c : ascii) (a b : string) :
  String c a +:+ b = String c (a +:+ b).
Proof. reflexivity. Qed.

Lemma length_append (a b : string) :
  String.length (a +:+ b) = (String.length a + String.length b)%nat.
Proof.
  induction a as [|c a IH]; [reflexivity|].
  rewrite append_cons. cbn. f_equal. exact IH.
Qed.

Lemma length_blanks (n : nat) : String.length (blanks n) = n.
Proof. induction n as [|n IH]; [reflexivity|]. cbn. f_equal. exact IH. Qed.

Lemma length_format_d (width : nat) (z : Z) :
  String.length (format_d width z)
  = Nat.max width (String.length (pretty z)).
Proof. unfold format_d. rewrite length_append, length_blanks. lia. Qed.

Lemma pretty_small (z : Z) :
  0 <= z < 1000 ->
  String.length (pretty z)
  = if Z.ltb z 10 then 1%nat else if Z.ltb z 100 then 2%nat else 3%nat.
Proof.
  intros Hz.
  assert (H : forallb
                (fun n => Nat.eqb (String.length (pretty (Z.of_nat n)))
                            (if Z.ltb (Z.of_nat n) 10 then 1
                             else if Z.ltb (Z.of_nat n) 100 then 2 else 3))
                (seq 0 1000) = true) by (vm_compute; reflexivity).
  rewrite List.forallb_forall in H.
  specialize (H (Z.to_nat z)). rewrite Z2Nat.id in H by lia.
  apply Nat.eqb_eq, H, in_seq. lia.
Qed.

Lemma length_format_2 (z : Z) :
  0 <= z < 100 -> String.length (format_d 2 z) = 2%nat.
Proof.
  intros Hz. rewrite length_format_d, pretty_small by lia.
  destruct (Z.ltb_spec z 10); [reflexivity|].
  destruct (Z.ltb_spec z 100); [reflexivity|lia].
Qed.

Lemma length_format_3 (z : Z) :
  0 <= z < 1000 -> String.length (format_d 3 z) = 3%nat.
Proof.
  intros Hz. rewrite length_format_d, pretty_small by lia.
  destruct (Z.ltb_spec z 10); [reflexivity|].
  destruct (Z.ltb_spec z 100); reflexivity.
Qed.

Lemma time_fields_bounds (value : Z) :
  let '(min, sec, ms) := time_fields value in
  0 <= sec < 60 /\ 0 <= ms < 1000
  /\ (min * 60 + sec) * 1000 + ms = value / MSECOND.
Proof.
  unfold time_fields. cbv zeta.
  set (q := value / MSECOND).
  pose proof (Z.mod_pos_bound q 1000 ltac:(lia)).
  pose proof (Z.mod_pos_bound (q / 1000) 60 ltac:(lia)).
  pose proof (Z.div_mod q 1000 ltac:(lia)).
  pose proof (Z.div_mod (q / 1000) 60 ltac:(lia)).
  lia.
Qed.

(** X12. The three numbers that [_time_to_string] prints are the minutes,
    seconds and milliseconds of the value truncated down to a millisecond:
    the seconds are in 0..59, the milliseconds in 0..999 also for a
    negative value, and the three recompose to the largest whole number
    of milliseconds that is not above the value. *)
Theorem time_string_fields (value : Z) :
  exists min sec ms,
    _time_to_string value
    = format_d 2 min +:+ "m " +:+ format_d 2 sec +:+ "s " +:+ format_d 3 ms
    /\ 0 <= sec < 60 /\ 0 <= ms < 1000
    /\ let total := (min * 60 + sec) * 1000 + ms in
       total * MSECOND <= value < (total + 1) * MSECOND.
Proof.
  pose proof (time_fields_bounds value) as H. unfold _time_to_string.
  destruct (time_fields value) as [[min sec] ms].
  exists min, sec, ms. destruct H as (Hs & Hm & Ht).
  split; [reflexivity|]. split; [exact Hs|]. split; [exact Hm|].
  cbv zeta. rewrite Ht. unfold MSECOND.
  pose proof (Z.div_mod value 1000000 ltac:(lia)).
  pose proof (Z.mod_pos_bound value 1000000 ltac:(lia)). lia.
Qed.

Lemma length_time_string (value : Z) :
  String.length (_time_to_string value)
  = (Nat.max 2 (String.length (pretty (value / MSECOND / 1000 / 60)%Z))
     + 9)%nat.
Proof.
  pose proof (time_fields_bounds value) as H. unfold _time_to_string.
  assert (E : fst (fst (time_fields value)) = value / MSECOND / 1000 / 60)
    by reflexivity.
  destruct (time_fields value) as [[min sec] ms]. cbn in E. subst min.
  destruct H as (Hs & Hm & _).
  rewrite !length_append, (length_format_2 sec), (length_format_3 ms),
    length_format_d by lia.
  cbn. lia.
Qed.

(** X13. The text of [_time_to_string] is never shorter than 11
    characters, and it has exactly 11 for every value from 0 up to, not
    including, 100 minutes (6 000 000 000 000 nanoseconds): the columns
    line up for those. *)
Theorem time_string_width (value : Z) :
  (11 <= String.length (_time_to_string value))%nat
  /\ (0 <= value < 6000000000000 ->
      String.length (_time_to_string value) = 11%nat).
Proof.
  rewrite length_time_string. split; [lia|]. intros Hv.
  assert (Hm : 0 <= value / MSECOND / 1000 / 60 < 100).
  { unfold MSECOND. split.
    - repeat apply Z.div_pos; lia.
    - rewrite !Z.div_div by lia. apply Z.div_lt_upper_bound; lia. }
  rewrite <- length_format_d, length_format_2 by exact Hm. reflexivity.
Qed.

Lemma time_string_width_witness :
  0 <= 10000000000 < 6000000000000
  /\ String.length (_time_to_string 10000000000) = 11%nat.
Proof.
  split; [lia|]. apply (proj2 (time_string_width 10000000000)). lia.
Defined.

Lemma pretty_N_go_solid (x : N) (s : string) :
  starts_solid s -> starts_solid (pretty_N_go x s).
Proof.
  revert s. induction (N.lt_wf_0 x) as [x _ IH]. intros s Hs.
  destruct (N.eq_dec x 0%N) as [->|Hx]; [exact Hs|].
  rewrite pretty_N_go_step by lia. apply IH.
  - apply N.div_lt; lia.
  - cbn. unfold pretty_N_char. repeat case_match; discriminate.
Qed.

Lemma pretty_solid (z : Z) : starts_solid (pretty z).
Proof.
  assert (Hp : forall p : positive, starts_solid (pretty p)).
  { intros p. unfold pretty, pretty_positive, pretty, pretty_N.
    destruct (decide (N.pos p = 0%N)) as [E|_]; [discriminate E|].
    rewrite pretty_N_go_step by lia. apply pretty_N_go_solid.
    cbn. unfold pretty_N_char. repeat case_match; discriminate. }
  destruct z as [|p|p]; [cbn; discriminate|apply Hp|cbn; discriminate].
Qed.

Lemma blanks_solid_inj (k1 k2 : nat) (p1 p2 : string) :
  starts_solid p1 -> starts_solid p2 ->
  blanks k1 +:+ p1 = blanks k2 +:+ p2 -> p1 = p2.
Proof.
  intros H1 H2. revert k2.
  induction k1 as [|k1 IH]; intros [|k2] E;
    cbn [blanks] in E; rewrite ?append_nil, ?append_cons in E.
  - exact E.
  - subst p1. cbn in H1. congruence.
  - subst p2. cbn in H2. congruence.
  - injection E as E. exact (IH _ E).
Qed.

Lemma format_d_inj (width : nat) (a b : Z) :
  format_d width a = format_d width b -> a = b.
Proof.
  unfold format_d. intros E.
  apply blanks_solid_inj in E; [|apply pretty_solid..].
  exact (pretty_Z_inj _ _ E).
Qed.

Lemma append_inj_length (a1 a2 b1 b2 : string) :
  String.length a1 = String.length a2 ->
  a1 +:+ b1 = a2 +:+ b2 -> a1 = a2 /\ b1 = b2.
Proof.
  revert a2. induction a1 as [|c a1 IH]; intros [|c2 a2] Hl E;
    try discriminate Hl.
  - split; [reflexivity|exact E].
  - rewrite !append_cons in E. cbn in Hl. injection E as -> E.
    injection Hl as Hl.
    destruct (IH _ Hl E) as [-> ->]. split; reflexivity.
Qed.

(** X14. Two values have the same text exactly when they lie in the same
    millisecond: [_time_to_string] drops the part of the value below a
    millisecond and nothing else. *)
Theorem time_string_same_text (a b : Z) :
  _time_to_string a = _time_to_string b <-> a / MSECOND = b / MSECOND.
Proof.
  split.
  - intros E. pose proof (f_equal String.length E) as Hlen.
    rewrite !length_time_string in Hlen.
    pose proof (time_fields_bounds a) as Ha.
    pose proof (time_fields_bounds b) as Hb.
    unfold _time_to_string in E.
    assert (Ea : fst (fst (time_fields a)) = a / MSECOND / 1000 / 60)
      by reflexivity.
    assert (Eb : fst (fst (time_fields b)) = b / MSECOND / 1000 / 60)
      by reflexivity.
    destruct (time_fields a) as [[m1 s1] ms1].
    destruct (time_fields b) as [[m2 s2] ms2].
    cbn in Ea, Eb. rewrite <- Ea, <- Eb in Hlen.
    destruct Ha as (Hs1 & Hm1 & <-). destruct Hb as (Hs2 & Hm2 & <-).
    apply append_inj_length in E as [Em E];
      [|rewrite !length_format_d; lia].
    rewrite !(append_cons "m"), !(append_cons " "), !append_nil in E.
    injection E as E.
    apply append_inj_length in E as [Es E].
    2: { rewrite !length_format_2 by lia. reflexivity. }
    rewrite !(append_cons "s"), !(append_cons " "), !append_nil in E.
    injection E as E.
    apply format_d_inj in Em, Es, E. subst. reflexivity.
  - intros E. unfold _time_to_string, time_fields. rewrite E. reflexivity.
Qed.

(** ** The graph chosen by [__init__] *)

Lemma contains_at_cons (c : ascii) (t : string) :
  contains "@" (String c t)
  = if Ascii.eqb c "@" then true else contains "@" t.
Proof.
  change (contains "@" (String c t))
    with (if String.prefix "@" (String c t) then true else contains "@" t).
  change (String.prefix "@" (String c t))
    with (if ascii_dec "@" c then String.prefix "" t else false).
  destruct (ascii_dec "@"%char c) as [<-|Hne].
  - destruct t; reflexivity.
  - apply not_eq_sym, Ascii.eqb_neq in Hne. rewrite Hne. reflexivity.
Qed.

Lemma split_char_cons (s : string) :
  exists h r, split_char "@" s = h :: r.
Proof.
  induction s as [|c t (h & r & IH)]; cbn; [eauto|].
  destruct (Ascii.eqb c "@"); [eauto|]. rewrite IH. eauto.
Qed.

Lemma split_char_absent (s : string) :
  contains "@" s = false -> split_char "@" s = [s].
Proof.
  induction s as [|c t IH]; [reflexivity|].
  rewrite contains_at_cons. cbn [split_char].
  destruct (Ascii.eqb c "@"); [discriminate|].
  intros H. rewrite (IH H). reflexivity.
Qed.

Lemma split_char_first (a b : string) :
  contains "@" a = false ->
  split_char "@" (a +:+ String "@" b) = a :: split_char "@" b.
Proof.
  induction a as [|c t IH]; [reflexivity|].
  rewrite contains_at_cons, append_cons. cbn [split_char].
  destruct (Ascii.eqb c "@"); [discriminate|].
  intros H. rewrite (IH H). reflexivity.
Qed.

Lemma split_char_many (s : string) :
  (1 <? List.length (split_char "@" s))%nat = contains "@" s.
Proof.
  induction s as [|c t IH]; [reflexivity|].
  rewrite contains_at_cons. cbn [split_char].
  destruct (Ascii.eqb c "@").
  - destruct (split_char_cons t) as (h & r & ->). reflexivity.
  - rewrite <- IH. destruct (split_char_cons t) as (h & r & ->).
    reflexivity.
Qed.

Lemma contains_at_append (a b : string) :
  contains "@" (a +:+ b) = contains "@" a || contains "@" b.
Proof.
  induction a as [|c t IH]; [reflexivity|].
  rewrite append_cons, !contains_at_cons, IH.
  destruct (Ascii.eqb c "@"); reflexivity.
Qed.

Lemma append_assoc (a b c : string) : (a +:+ b) +:+ c = a +:+ b +:+ c.
Proof.
  induction a as [|x a IH]; [reflexivity|].
  rewrite !append_cons, IH. reflexivity.
Qed.

Lemma prefix_nil (s : string) : String.prefix "" s = true.
Proof. destruct s; reflexivity. Qed.

Lemma prefix_append (p s : string) : String.prefix p (p +:+ s) = true.
Proof.
  induction p as [|c p IH]; [apply prefix_nil|].
  rewrite append_cons.
  change (String.prefix (String c p) (String c (p +:+ s)))
    with (if ascii_dec c c then String.prefix p (p +:+ s) else false).
  destruct (ascii_dec c c) as [_|Hne]; [exact IH|congruence].
Qed.

(** X15. Whenever [__init__] sets up a [uridecodebin], its [uri] is the
    file name itself if that starts with [dvd://], [v4l://], [v4l2://] or
    [file://], and otherwise [file://] followed by the absolute path.  The
    [uri] always starts with one of the four schemes, and given as a file
    name it is kept as it is. *)
Theorem uri_has_scheme (abspath : string -> string)
    (int_of_str : string -> result Z) (filename uri : string) :
  init_graph abspath int_of_str filename = Ok (UriDecodeBin uri) ->
  uri = (if has_scheme filename then filename
         else "file://" +:+ abspath filename)
  /\ has_scheme uri = true
  /\ init_graph abspath int_of_str uri = Ok (UriDecodeBin uri).
Proof.
  unfold init_graph, has_scheme. cbv zeta.
  destruct (String.prefix "dvd://" filename) eqn:Hd.
  { rewrite split_char_many.
    destruct (contains "@" filename) eqn:Hc.
    - destruct (int_of_str (nth 1 (split_char "@" filename) ""));
        discriminate.
    - intros [= <-]. rewrite Hd, split_char_many, Hc. auto. }
  destruct (String.prefix "v4l://" filename) eqn:H1;
    [intros [= <-]; rewrite Hd, H1; auto|].
  destruct (String.prefix "v4l2://" filename) eqn:H2;
    [intros [= <-]; rewrite Hd, H1, H2; auto|].
  destruct (String.prefix "file://" filename) eqn:H3;
    [intros [= <-]; rewrite Hd, H1, H2, H3; auto|].
  intros [= <-]. cbn [orb]. split; [reflexivity|].
  rewrite (prefix_append "file://" (abspath filename)).
  change (String.prefix "dvd://" ("file://" +:+ abspath filename))
    with false.
  change (String.prefix "v4l://" ("file://" +:+ abspath filename))
    with false.
  change (String.prefix "v4l2://" ("file://" +:+ abspath filename))
    with false.
  auto.
Qed.

Lemma uri_has_scheme_witness :
  init_graph example_abspath example_int "movie.ogg"
  = Ok (UriDecodeBin "file:///home/user/movie.ogg")
  /\ init_graph example_abspath example_int "file:///home/user/movie.ogg"
     = Ok (UriDecodeBin "file:///home/user/movie.ogg").
Proof.
  split; [reflexivity|].
  apply (uri_has_scheme example_abspath example_int "movie.ogg"
           "file:///home/user/movie.ogg").
  reflexivity.
Defined.

(** X16. A file name [dvd://<device>@<title>], where neither part has an
    [@], sets up a [dvdreadsrc] with exactly that device and with the
    title that [int] reads, and raises what [int] raises; whatever follows
    a second [@] is ignored. *)
Theorem dvd_locator (abspath : string -> string)
    (int_of_str : string -> result Z) (device text junk : string) :
  contains "@" device = false -> contains "@" text = false ->
  let expected :=
    let? title := int_of_str text in Ok (DvdReadSrc device title) in
  init_graph abspath int_of_str ("dvd://" +:+ device +:+ "@" +:+ text)
  = expected
  /\ init_graph abspath int_of_str
       ("dvd://" +:+ device +:+ "@" +:+ text +:+ "@" +:+ junk)
     = expected.
Proof.
  intros Hd Ht expected.
  assert (Ha : contains "@" ("dvd://" +:+ device) = false)
    by (rewrite contains_at_append, Hd; reflexivity).
  assert (E : forall rest,
             init_graph abspath int_of_str
               ("dvd://" +:+ device +:+ String "@" rest)
             = let? title :=
                 int_of_str (nth 0 (split_char "@" rest) EmptyString) in
               Ok (DvdReadSrc device title)).
  { intros rest. unfold init_graph. rewrite prefix_append. cbv zeta.
    rewrite <- append_assoc, (split_char_first _ _ Ha).
    destruct (split_char_cons rest) as (h & r & ->). reflexivity. }
  split.
  - change ("@" +:+ text) with (String "@" text). rewrite E.
    rewrite (split_char_absent _ Ht). reflexivity.
  - change ("@" +:+ text +:+ "@" +:+ junk)
      with (String "@" (text +:+ String "@" junk)).
    rewrite E, (split_char_first _ _ Ht). reflexivity.
Qed.

Lemma dvd_locator_witness :
  contains "@" "/dev/sr0" = false /\ contains "@" "2" = false
  /\ init_graph example_abspath example_int "dvd:///dev/sr0@2"
     = Ok (DvdReadSrc "/dev/sr0" 2)
  /\ init_graph example_abspath example_int "dvd:///dev/sr0@2@x"
     = Ok (DvdReadSrc "/dev/sr0" 2).
Proof.
  split; [reflexivity|]. split; [reflexivity|].
  exact (dvd_locator example_abspath example_int "/dev/sr0" "2" "x"
           eq_refl eq_refl).
Defined.
